(** * text_to_image: the model cache, the out-of-memory retry loop and the
      scoped pipeline customisations of [runtime.py], and the seed handling
      of [model.py], as a shallow embedding.

    Python state is threaded explicitly: every method of [GlobalRuntime]
    becomes a function [World -> res A * World], where a raised exception
    keeps the mutations made before it.  Pipeline objects live in a store
    indexed by object identity, because the cache, the lease handed to the
    caller and the [ignored_models] list all alias them. *)

From Stdlib Require Import ZArith QArith List String Ascii Bool Lia.
From stdpp Require Import base option list gmap sets strings sorting.

Local Open Scope Z_scope.
Local Open Scope string_scope.
Local Open Scope list_scope.

(* ===================================================================== *)
(** ** Python strings *)
(* ===================================================================== *)

(** [str] values are sequences of characters; the methods used by the
    runtime are written over [list ascii] and wrapped. *)
Module Str.

Definition chars (s : string) : list ascii := list_ascii_of_string s.
Definition of_chars (l : list ascii) : string := string_of_list_ascii l.

Fixpoint prefix_chars (p s : list ascii) : bool :=
  match p, s with
  | [], _ => true
  | _ :: _, [] => false
  | a :: p', b :: s' => Ascii.eqb a b && prefix_chars p' s'
  end.

(** [s.startswith(p)] *)
Definition startswith (s p : string) : bool := prefix_chars (chars p) (chars s).

(** [s.endswith(p)] *)
Definition endswith (s p : string) : bool :=
  prefix_chars (rev (chars p)) (rev (chars s)).

Fixpoint contains_chars (p s : list ascii) : bool :=
  prefix_chars p s ||
  match s with
  | [] => false
  | _ :: s' => contains_chars p s'
  end.

(** [p in s] *)
Definition contains (p s : string) : bool := contains_chars (chars p) (chars s).

Definition lower_char (c : ascii) : ascii :=
  let n := nat_of_ascii c in
  if (65 <=? n)%nat && (n <=? 90)%nat then ascii_of_nat (n + 32) else c.

(** [s.lower()], on the ASCII range *)
Definition lower (s : string) : string := of_chars (map lower_char (chars s)).

(** The text after the last occurrence of [sep], or the whole text:
    [s.split(sep)[-1]] for a one-character separator. *)
Fixpoint last_segment_chars (sep : ascii) (acc s : list ascii) : list ascii :=
  match s with
  | [] => rev acc
  | c :: s' =>
      if Ascii.eqb c sep then last_segment_chars sep [] s'
      else last_segment_chars sep (c :: acc) s'
  end.

Definition last_segment (sep : ascii) (s : string) : string :=
  of_chars (last_segment_chars sep [] (chars s)).

Fixpoint lstrip_chars (c : ascii) (s : list ascii) : list ascii :=
  match s with
  | [] => []
  | a :: s' => if Ascii.eqb a c then lstrip_chars c s' else s
  end.

(** [s.strip(c)] for a one-character set *)
Definition strip (c : ascii) (s : string) : string :=
  of_chars (rev (lstrip_chars c (rev (lstrip_chars c (chars s))))).

(** [s.replace(a, b)] for one-character [a] and [b] *)
Definition replace (a b : ascii) (s : string) : string :=
  of_chars (map (fun c => if Ascii.eqb c a then b else c) (chars s)).

(** [s.rfind(c)]: index of the last occurrence of [c] *)
Fixpoint rfind_chars (c : ascii) (i : nat) (s : list ascii) : option nat :=
  match s with
  | [] => None
  | a :: s' =>
      match rfind_chars c (S i) s' with
      | Some j => Some j
      | None => if Ascii.eqb a c then Some i else None
      end
  end.

Definition rfind (c : ascii) (s : string) : option nat := rfind_chars c 0 (chars s).

Definition is_empty (s : string) : bool :=
  match s with EmptyString => true | _ => false end.

(** Splitting on ["/"], keeping every segment. *)
Fixpoint split_chars (sep : ascii) (acc s : list ascii) : list (list ascii) :=
  match s with
  | [] => [rev acc]
  | c :: s' =>
      if Ascii.eqb c sep then rev acc :: split_chars sep [] s'
      else split_chars sep (c :: acc) s'
  end.

Definition split (sep : ascii) (s : string) : list string :=
  map of_chars (split_chars sep [] (chars s)).

Definition hex_digit (n : nat) : ascii :=
  nth n (chars "0123456789abcdef") "0"%char.

Definition double_quote : ascii := ascii_of_nat 34.

(** One character of [repr(s)]: the backslash and the quote in use get a
    backslash, tab, line feed and carriage return their letter, the other
    control characters two hexadecimal digits. *)
Definition repr_char (quote c : ascii) : list ascii :=
  let n := nat_of_ascii c in
  if Ascii.eqb c "\" || Ascii.eqb c quote then ["\"%char; c]
  else if (n =? 9)%nat then ["\"%char; "t"%char]
  else if (n =? 10)%nat then ["\"%char; "n"%char]
  else if (n =? 13)%nat then ["\"%char; "r"%char]
  else if (n <? 32)%nat || (n =? 127)%nat
       then ["\"%char; "x"%char; hex_digit (n / 16); hex_digit (n mod 16)]
  else [c].

(** [repr(s)], on the ASCII range: the text between single quotes, or
    between double quotes when it has a single quote and no double
    quote. *)
Definition repr (s : string) : string :=
  let cs := chars s in
  let quote :=
    if existsb (Ascii.eqb "'") cs && negb (existsb (Ascii.eqb double_quote) cs)
    then double_quote else "'"%char in
  of_chars (quote :: flat_map (repr_char quote) cs ++ [quote]).

End Str.

(* ===================================================================== *)
(** ** Exceptions and the state-and-exception monad *)
(* ===================================================================== *)

(** The classes of exception the runtime raises or tests for.  Only
    descendants of [Exception] are modelled.  [RuntimeErrorSubclass],
    [ValueErrorSubclass] and [TypeErrorSubclass] stand for the descendants
    of the three classes that an [except] clause names, which the clause
    catches as well; [OtherException] is a class that descends from none
    of the classes listed here. *)
Inductive ExnClass :=
| RuntimeError
| RuntimeErrorSubclass (name : string)
| ValueError
| ValueErrorSubclass (name : string)
| TypeError
| TypeErrorSubclass (name : string)
| AttributeError
| KeyError
| ZeroDivisionError
| HTTPError
| OtherException (name : string).

(** A raised exception: its class and [str(error)]. *)
Record exn := mk_exn { exn_class : ExnClass; exn_text : string }.

Definition is_RuntimeError (e : exn) : bool :=
  match exn_class e with
  | RuntimeError | RuntimeErrorSubclass _ => true
  | _ => false
  end.

(** [isinstance(e, (ValueError, TypeError))] *)
Definition is_ValueError_or_TypeError (e : exn) : bool :=
  match exn_class e with
  | ValueError | ValueErrorSubclass _ | TypeError | TypeErrorSubclass _ => true
  | _ => false
  end.

Inductive res (A : Type) :=
| Ok (a : A)
| Raise (e : exn).
Arguments Ok {A} a.
Arguments Raise {A} e.

Definition is_Ok {A} (r : res A) : bool :=
  match r with Ok _ => true | Raise _ => false end.

Section Monad.
Context {St : Type}.

(** A computation over the state [S] that returns or raises. *)
Definition M (A : Type) : Type := St -> res A * St.

Definition ret {A} (a : A) : M A := fun w => (Ok a, w).
Definition raise {A} (e : exn) : M A := fun w => (Raise e, w).

Definition bind {A B} (c : M A) (k : A -> M B) : M B :=
  fun w =>
    match c w with
    | (Ok a, w') => k a w'
    | (Raise e, w') => (Raise e, w')
    end.

Definition get : M St := fun w => (Ok w, w).
Definition modify (f : St -> St) : M unit := fun w => (Ok tt, f w).
Definition lift {A} (r : res A) : M A := fun w => (r, w).

(** [try: body finally: cleanup].  The cleanup always runs; when it
    raises, its exception replaces the outcome of the body. *)
Definition try_finally {A} (body : M A) (cleanup : M unit) : M A :=
  fun w =>
    match body w with
    | (r, w1) =>
        match cleanup w1 with
        | (Ok _, w2) => (r, w2)
        | (Raise e, w2) => (Raise e, w2)
        end
    end.

(** [try: body except Exception: handler else: orelse] *)
Definition try_except_else (body : M unit) (handler : exn -> M unit)
    (orelse : M unit) : M unit :=
  fun w =>
    match body w with
    | (Ok _, w1) => orelse w1
    | (Raise e, w1) => handler e w1
    end.

(** A list comprehension whose element expression has effects. *)
Fixpoint mapM {A B} (f : A -> M B) (l : list A) : M (list B) :=
  match l with
  | [] => ret []
  | x :: l' => bind (f x) (fun y => bind (mapM f l') (fun ys => ret (y :: ys)))
  end.

(** A [for] loop run for its effects. *)
Fixpoint forM_ {A} (l : list A) (f : A -> M unit) : M unit :=
  match l with
  | [] => ret tt
  | x :: l' => bind (f x) (fun _ => forM_ l' f)
  end.

End Monad.

Declare Scope py_scope.
Delimit Scope py_scope with py.
Notation "x <- c ;; k" := (bind c (fun x => k))
  (at level 100, c at next level, right associativity) : py_scope.
Notation "c ;;; k" := (bind c (fun _ => k))
  (at level 100, right associativity) : py_scope.
Local Open Scope py_scope.

(* ===================================================================== *)
(** ** Data model *)
(* ===================================================================== *)

(** [DeviceType = Literal["cpu", "cuda"]] *)
Inductive DeviceType := cpu | cuda.

Definition device_eqb (a b : DeviceType) : bool :=
  match a, b with
  | cpu, cpu | cuda, cuda => true
  | _, _ => false
  end.

(** Values of keyword arguments and of configuration entries. *)
Inductive pyval :=
| VBool (b : bool)
| VStr (s : string)
| VInt (z : Z)
| VNum (q : Q).

Definition kwargs := list (string * pyval).

(** A sampler instance: its identity, the name of its class, its
    configuration and the classes it declares compatible. *)
Record Scheduler := {
  sched_id : nat;
  sched_class : string;
  sched_config : kwargs;
  compatibles : list string
}.

(** [class LoraWeight(BaseModel)]: [path] and [scale]. *)
Record LoraWeight := { path : string; scale : Q }.

(** Python is dynamically typed: the value bound to a name that the
    annotations call a [str] may be a [LoraWeight] object, and a method
    that the object does not have raises at the call. *)
Inductive pyobj :=
| py_str (s : string)
| py_LoraWeight (l : LoraWeight).

(** The calls the runtime makes on a pipeline object. *)
Inductive PipeCall :=
| call_to (device : DeviceType)
| call_load_lora_weights (lora_path : pyobj) (adapter_name : string)
| call_set_adapters (adapter_names : list string) (adapter_weights : option (list Q))
| call_fuse_lora
| call_unfuse_lora
| call_unload_lora_weights
| call_pipe (kw : kwargs).

(** A pipeline object, as far as the runtime looks into it: the device it
    sits on, its sampler, its [watermark] attribute ([None] when the
    attribute is absent) and the calls made on it so far, oldest first. *)
Record Pipe := {
  device : DeviceType;
  scheduler : Scheduler;
  watermark : option (option string);
  calls : list PipeCall
}.

(** [@dataclass class Model]: the pipeline (a reference into the object
    store) and the time of the last lease.  Readings of the monotonic
    clock are integers here; the runtime only stores and compares them. *)
Record Model := { pipeline : nat; last_cache_hit : Z }.

(** [model_key = (model_name, arch)] *)
Definition ModelKey : Type := string * string.

Definition key_eqb (a b : ModelKey) : bool :=
  String.eqb (fst a) (fst b) && String.eqb (snd a) (snd b).

(** The state the runtime reads and writes: [self.models] in insertion
    order, the pipeline objects by identity, the paths that exist on the
    local disk, and the effects on the outside that the runtime causes
    (network transfers, reclamation passes of the device allocator) or
    reads (the monotonic clock). *)
Record World := {
  models : list (ModelKey * Model);
  heap : nat -> Pipe;
  next_id : nat;
  files : gset string;
  transfers : nat;
  reclaims : nat;
  clock : Z
}.

Definition set_models (m : list (ModelKey * Model)) (w : World) : World :=
  {| models := m; heap := heap w; next_id := next_id w; files := files w;
     transfers := transfers w; reclaims := reclaims w; clock := clock w |}.

Definition set_heap (h : nat -> Pipe) (w : World) : World :=
  {| models := models w; heap := h; next_id := next_id w; files := files w;
     transfers := transfers w; reclaims := reclaims w; clock := clock w |}.

Definition set_next_id (n : nat) (w : World) : World :=
  {| models := models w; heap := heap w; next_id := n; files := files w;
     transfers := transfers w; reclaims := reclaims w; clock := clock w |}.

Definition set_files (f : gset string) (w : World) : World :=
  {| models := models w; heap := heap w; next_id := next_id w; files := f;
     transfers := transfers w; reclaims := reclaims w; clock := clock w |}.

Definition set_transfers (n : nat) (w : World) : World :=
  {| models := models w; heap := heap w; next_id := next_id w; files := files w;
     transfers := n; reclaims := reclaims w; clock := clock w |}.

Definition set_reclaims (n : nat) (w : World) : World :=
  {| models := models w; heap := heap w; next_id := next_id w; files := files w;
     transfers := transfers w; reclaims := n; clock := clock w |}.

Definition set_clock (t : Z) (w : World) : World :=
  {| models := models w; heap := heap w; next_id := next_id w; files := files w;
     transfers := transfers w; reclaims := reclaims w; clock := t |}.

(** *** The dictionary [self.models] *)

Fixpoint dict_get (k : ModelKey) (d : list (ModelKey * Model)) : option Model :=
  match d with
  | [] => None
  | (k', m) :: d' => if key_eqb k k' then Some m else dict_get k d'
  end.

(** [d[k] = m]: replaces in place, or appends a new key at the end. *)
Fixpoint dict_set (k : ModelKey) (m : Model) (d : list (ModelKey * Model))
    : list (ModelKey * Model) :=
  match d with
  | [] => [(k, m)]
  | (k', m') :: d' =>
      if key_eqb k k' then (k', m) :: d' else (k', m') :: dict_set k m d'
  end.

Fixpoint dict_remove (k : ModelKey) (d : list (ModelKey * Model))
    : list (ModelKey * Model) :=
  match d with
  | [] => []
  | (k', m') :: d' =>
      if key_eqb k k' then dict_remove k d' else (k', m') :: dict_remove k d'
  end.

Definition dict_mem (k : ModelKey) (d : list (ModelKey * Model)) : bool :=
  match dict_get k d with Some _ => true | None => false end.

(** *** The outside of the runtime *)

(** What a download attempt meets. *)
Inductive Response :=
| resp_raises (e : exn)
| resp_body (content_length received : Z).

(** What [shutil.move(src, dst)] meets: the file arrives under its new
    name, or the move raises, with the source still in place and a
    destination that may have been written in part. *)
Inductive Move :=
| moved
| move_raises (e : exn) (dst_written : bool).

(** A generated image, and the reference to it once uploaded. *)
Definition RawImage : Type := nat.
Definition Image : Type := string.

(** The architecture-specific loader classes of [get_model]. *)
Inductive PipelineCls := StableDiffusionXLPipeline | StableDiffusionPipeline.

(** The collaborators of the runtime, whose code is not part of it: the
    standard library ([urlparse], [md5], [urlopen], [mkstemp],
    [shutil.move]), [psutil], and the inference library (the loaders,
    [from_config], and whether a call on a pipeline raises).  Each answer
    may depend on the state.  [md5_hexdigest] gives the digest as it is
    written in the name of the cache file, in hexadecimal digits. *)
Record Externals := {
  urlparse_path : string -> string;
  md5_hexdigest : string -> string;
  urlopen : string -> World -> Response;
  mkstemp : World -> string;
  shutil_move : string -> string -> World -> Move;
  virtual_memory : World -> Z * Z;
  pipe_raises : nat -> PipeCall -> World -> option exn;
  from_config : string -> kwargs -> kwargs -> World -> res Scheduler;
  from_single_file : PipelineCls -> string -> World -> res Pipe;
  from_pretrained : string -> World -> res Pipe;
  pipe_output : nat -> kwargs -> World -> list RawImage;
  Image_from_pil : RawImage -> World -> res Image
}.

(** *** String methods on dynamically typed values *)

Definition no_attribute (cls attr : string) : exn :=
  mk_exn AttributeError ("'" +:+ cls +:+ "' object has no attribute '" +:+ attr +:+ "'").

(** [o.startswith(p)] *)
Definition py_startswith (o : pyobj) (p : string) : res bool :=
  match o with
  | py_str s => Ok (Str.startswith s p)
  | py_LoraWeight _ => Raise (no_attribute "LoraWeight" "startswith")
  end.

(** The text of a value used where the code calls [str] methods on it. *)
Definition py_as_str (o : pyobj) : res string :=
  match o with
  | py_str s => Ok s
  | py_LoraWeight _ => Raise (no_attribute "LoraWeight" "endswith")
  end.

(** *** [pathlib] *)
Module Pathlib.

(** [Path(p).name]: the last component, where empty components and
    ["."] do not count. *)
Definition name (p : string) : string :=
  let parts :=
    List.filter (fun c => negb (Str.is_empty c) && negb (String.eqb c "."))
                (Str.split "/" p) in
  List.last parts "".

(** [Path.suffix] of a file name: from the last dot on, unless that dot
    starts or ends the name. *)
Definition suffix (nm : string) : string :=
  match Str.rfind "." nm with
  | Some i =>
      if (0 <? i)%nat && (i <? String.length nm - 1)%nat
      then substring i (String.length nm - i) nm
      else ""
  | None => ""
  end.

(** [Path.with_suffix], on the name of the path; the suffixes the
    runtime builds start with a dot and are longer than the dot. *)
Definition with_suffix (nm sfx : string) : res string :=
  if Str.contains "/" sfx then
    Raise (mk_exn ValueError ("Invalid suffix " +:+ sfx))
  else if Str.is_empty nm then
    Raise (mk_exn ValueError "path has an empty name")
  else
    let old_suffix := suffix nm in
    Ok (substring 0 (String.length nm - String.length old_suffix) nm +:+ sfx).

(** [Path(p).name] of a value; [Path] refuses what is not a path. *)
Definition name_of (o : pyobj) : res string :=
  match o with
  | py_str s => Ok (name s)
  | py_LoraWeight _ =>
      Raise (mk_exn TypeError
               "expected str, bytes or os.PathLike object, not LoraWeight")
  end.

(** [directory / nm], for the text of a path [directory] and a name
    [nm] of one component: the empty path, whose text is ["."], gives the
    name alone, and a root, which ends with its separator, takes the name
    without another one. *)
Definition join (directory nm : string) : string :=
  if Str.is_empty directory || String.eqb directory "." then nm
  else if Str.endswith directory "/" then directory +:+ nm
  else directory +:+ "/" +:+ nm.

End Pathlib.

Definition is_Some_b {A} (o : option A) : bool :=
  match o with Some _ => true | None => false end.

(* ===================================================================== *)
(** ** Python floats *)
(* ===================================================================== *)

(** A [float] is a binary64 number; a finite one is written here as the
    rational it denotes.  The numbers of the format are the [m * 2^e]
    with [m] below [2^53] and [e] from [-1074] up to [971]. *)
Module Float.

(** [x * 2^k] for a [k] that is not negative, and [x] otherwise. *)
Definition scale (x k : Z) : Z := (x * 2 ^ Z.max 0 k)%Z.

(** The integer nearest to [n / d] for a positive [d]; halfway between
    two integers it is the even one. *)
Definition round_half_even (n d : Z) : Z :=
  let q := (n / d)%Z in
  let r := (n mod d)%Z in
  if (2 * r <? d)%Z then q
  else if (d <? 2 * r)%Z then (q + 1)%Z
  else if Z.even q then q else (q + 1)%Z.

(** [2^k * d <= n] *)
Definition pow2_le (k d n : Z) : bool := (scale d k <=? scale n (- k))%Z.

(** The exponent of a positive quotient: the [k] with
    [2^k <= n / d < 2^(k+1)]. *)
Definition exponent (n d : Z) : Z :=
  let k := (Z.log2 n - Z.log2 d)%Z in
  if pow2_le k d n then k else (k - 1)%Z.

(** [n / d] for two [int]s: the exact quotient rounded to the nearest
    binary64 number, which has 53 significant bits, or fewer at the
    bottom of the range. *)
Definition true_divide (n d : Z) : res Q :=
  if (d =? 0)%Z then Raise (mk_exn ZeroDivisionError "division by zero")
  else if (n =? 0)%Z then Ok 0%Q
  else
    let a := Z.abs n in
    let b := Z.abs d in
    let e := Z.max (exponent a b - 52) (-1074) in
    let m := round_half_even (scale a (- e)) (scale b e) in
    if (2 ^ 1024 <=? scale m e)%Z then
      Raise (mk_exn (OtherException "OverflowError")
               "integer division result too large for a float")
    else Ok (Qmake (Z.sgn n * Z.sgn d * scale m e) (Z.to_pos (scale 1 (- e)))).

End Float.

(* ===================================================================== *)
(** ** Constants of the module *)
(* ===================================================================== *)

Definition CHECKPOINTS_DIR : string := "/data/checkpoints".
Definition LORA_WEIGHTS_DIR : string := "/data/loras".
Definition CACHE_PREFIX : string := "".

Definition SUPPORTED_SCHEDULERS : list (string * (string * kwargs)) :=
  [ ("DPM++ 2M", ("DPMSolverMultistepScheduler", []));
    ("DPM++ 2M Karras",
      ("DPMSolverMultistepScheduler", [("use_karras_sigmas", VBool true)]));
    ("DPM++ 2M SDE",
      ("DPMSolverMultistepScheduler", [("algorithm_type", VStr "sde-dpmsolver++")]));
    ("DPM++ 2M SDE Karras",
      ("DPMSolverMultistepScheduler",
        [("algorithm_type", VStr "sde-dpmsolver++"); ("use_karras_sigmas", VBool true)]));
    ("Euler", ("EulerDiscreteScheduler", []));
    ("Euler A", ("EulerAncestralDiscreteScheduler", []));
    ("LCM", ("LCMScheduler", [])) ].

(** [RAM_BUFFER_PERCENTAGE = 1 - 0.75], the share of host memory kept
    free.  Both [0.75] and the difference are binary fractions, so the
    float is the number 1/4 itself. *)
Definition RAM_BUFFER_PERCENTAGE : Q := (1 - (75 # 100))%Q.

(** The two texts by which [execute_on_cuda] recognises an
    out-of-memory error. *)
Definition cuda_oom_errors : list string :=
  [ "CUDA out of memory"; "INTERNAL ASSERT FAILED" ].

(** [any(error_str in str(error) for error_str in __cuda_oom_errors)] *)
Definition is_cuda_oom (error : exn) : bool :=
  existsb (fun error_str => Str.contains error_str (exn_text error)) cuda_oom_errors.

(* ===================================================================== *)
(** ** Pipeline objects *)
(* ===================================================================== *)

Definition log_call (c : PipeCall) (P : Pipe) : Pipe :=
  {| device := device P; scheduler := scheduler P; watermark := watermark P;
     calls := calls P ++ [c] |}.

Definition with_device (d : DeviceType) (P : Pipe) : Pipe :=
  {| device := d; scheduler := scheduler P; watermark := watermark P;
     calls := calls P |}.

Definition with_scheduler (s : Scheduler) (P : Pipe) : Pipe :=
  {| device := device P; scheduler := s; watermark := watermark P;
     calls := calls P |}.

Definition with_watermark (m : option (option string)) (P : Pipe) : Pipe :=
  {| device := device P; scheduler := scheduler P; watermark := m;
     calls := calls P |}.

Definition update_pipe (p : nat) (f : Pipe -> Pipe) (w : World) : World :=
  set_heap (fun q => if Nat.eqb q p then f (heap w q) else heap w q) w.

(** [self.models[model_id].device()], i.e. [pipeline.device.type] *)
Definition model_device (w : World) (m : Model) : DeviceType :=
  device (heap w (pipeline m)).

(* ===================================================================== *)
(** ** Sorting by last cache hit *)
(* ===================================================================== *)

(** [list.sort(key=...)] is stable and ascending: an element goes before
    the first one whose key is not smaller. *)
Fixpoint insert_by_hit (x : ModelKey * Z) (l : list (ModelKey * Z)) : list (ModelKey * Z) :=
  match l with
  | [] => [x]
  | y :: l' => if (snd x <=? snd y)%Z then x :: y :: l' else y :: insert_by_hit x l'
  end.

Fixpoint sort_by_hit (l : list (ModelKey * Z)) : list (ModelKey * Z) :=
  match l with
  | [] => []
  | x :: l' => insert_by_hit x (sort_by_hit l')
  end.

(** The order of the keys of the sort. *)
Definition hit_le (a b : ModelKey * Z) : Prop := (snd a <= snd b)%Z.

Definition is_nil {A} (l : list A) : bool :=
  match l with [] => true | _ => false end.

Section Runtime.

Variable ext : Externals.

(* ===================================================================== *)
(** ** ModelCache and EvictionPolicy *)
(* ===================================================================== *)

(** The list that [get_loaded_models_by_device] builds, each key with
    the [last_cache_hit] it is sorted by: the keys, in dictionary order,
    whose pipeline sits on [dev] and is not one of [ignored_models],
    sorted by ascending [last_cache_hit]. *)
Definition loaded_with_hits (dev : DeviceType) (ignored_models : list nat)
    (w : World) : list (ModelKey * Z) :=
  let on_device (km : ModelKey * Model) :=
    device_eqb (model_device w (snd km)) dev in
  let not_ignored (km : ModelKey * Model) :=
    negb (existsb (Nat.eqb (pipeline (snd km))) ignored_models) in
  let selected := List.filter not_ignored (List.filter on_device (models w)) in
  sort_by_hit (map (fun km => (fst km, last_cache_hit (snd km))) selected).

(** [GlobalRuntime.get_loaded_models_by_device] *)
Definition get_loaded_models_by_device (dev : DeviceType)
    (ignored_models : list nat) (w : World) : list ModelKey :=
  map fst (loaded_with_hits dev ignored_models w).

(** [is_ram_buffer_full], the local function of [offload_model_to_cpu]:
    the two byte counts are divided as floats and the quotient is
    compared with [RAM_BUFFER_PERCENTAGE]. *)
Definition is_ram_buffer_full : M bool :=
  fun w =>
    let '(available, total) := virtual_memory ext w in
    match Float.true_divide available total with
    | Raise e => (Raise e, w)
    | Ok percent_available =>
        (Ok (negb (Qle_bool RAM_BUFFER_PERCENTAGE percent_available)), w)
    end.

(** The [KeyError] of a lookup in [self.models]: its text is the
    [repr] of the key, a tuple. *)
Definition missing_key (k : ModelKey) : exn :=
  mk_exn KeyError ("(" +:+ Str.repr (fst k) +:+ ", " +:+ Str.repr (snd k) +:+ ")").

(** [del self.models[k]] *)
Definition del_model (k : ModelKey) : M unit :=
  fun w =>
    if dict_mem k (models w) then (Ok tt, set_models (dict_remove k (models w)) w)
    else (Raise (missing_key k), w).

(** A call on the pipeline object [p]: it is recorded on the object, and
    raises when the inference library says so. *)
Definition pipe_call (p : nat) (c : PipeCall) : M unit :=
  fun w =>
    let w' := update_pipe p (log_call c) w in
    match pipe_raises ext p c w with
    | Some e => (Raise e, w')
    | None => (Ok tt, w')
    end.

(** [pipe.to(device)]: moves the pipeline in place and returns it. *)
Definition pipe_to (p : nat) (d : DeviceType) : M nat :=
  pipe_call p (call_to d) ;;;
  modify (update_pipe p (with_device d)) ;;;
  ret p.

(** The [while is_ram_buffer_full()] loop of [offload_model_to_cpu].
    [pop_order] is the list [models] read from its end, the order in
    which [models.pop()] hands out its elements.  The result tells
    whether the loop left through its [return]. *)
Fixpoint offload_loop (model_id : ModelKey) (pop_order : list ModelKey) : M bool :=
  full <- is_ram_buffer_full ;;
  if full then
    match pop_order with
    | [] => del_model model_id ;;; ret true
    | lru_model_id :: rest =>
        del_model lru_model_id ;;;
        offload_loop model_id rest
    end
  else ret false.

(** [GlobalRuntime.offload_model_to_cpu] *)
Definition offload_model_to_cpu (model_id : ModelKey) : M unit :=
  w0 <- get ;;
  let models_ := get_loaded_models_by_device cpu [] w0 in
  returned <- offload_loop model_id (rev models_) ;;
  if returned then ret tt
  else
    w <- get ;;
    match dict_get model_id (models w) with
    | None => raise (missing_key model_id)
    | Some model =>
        p <- pipe_to (pipeline model) cpu ;;
        modify (fun w' =>
          set_models (dict_set model_id
                        {| pipeline := p; last_cache_hit := last_cache_hit model |}
                        (models w')) w')
    end.

(** [GlobalRuntime.empty_cache]: a reclamation pass on the device.  The
    calls of [gc.collect()], here and in [offload_model_to_cpu], leave the
    state of the runtime as it is. *)
Definition empty_cache : M unit :=
  modify (fun w => set_reclaims (S (reclaims w)) w).

(** The [while first_try or cached_models] loop of [execute_on_cuda];
    [pop_order] is [cached_models] read from its end. *)
Fixpoint retry_loop {R} (function : M R) (first_try : bool)
    (pop_order : list ModelKey) : M R :=
  fun w =>
    if first_try || negb (is_nil pop_order) then
      match function w with
      | (Ok r, w1) => (Ok r, w1)
      | (Raise error, w1) =>
          if is_RuntimeError error then
            if negb (is_cuda_oom error) || is_nil pop_order
            then (Raise error, w1)
            else
              match pop_order with
              | [] => (Raise error, w1)
              | target_model_id :: rest =>
                  (offload_model_to_cpu target_model_id ;;;
                   empty_cache ;;;
                   retry_loop function false rest) w1
              end
          else (Raise error, w1)
      end
    else
      (empty_cache ;;;
       raise (mk_exn RuntimeError "Not enough CUDA memory to complete the operation.")) w.

(** [GlobalRuntime.execute_on_cuda] *)
Definition execute_on_cuda {R} (function : M R) (ignored_models : list nat) : M R :=
  fun w =>
    let cached_models := get_loaded_models_by_device cuda ignored_models w in
    retry_loop function true (rev cached_models) w.

(* ===================================================================== *)
(** ** WeightResolver *)
(* ===================================================================== *)

(** [Path.mkdir(exist_ok=True, parents=True)] *)
Definition mkdir (directory : string) : M unit :=
  modify (fun w => set_files ({[directory]} ∪ files w) w).

(** [Path.exists()] *)
Definition path_exists (p : string) : M bool :=
  fun w => (Ok (bool_decide (p ∈ files w)), w).

(** The state in which a download is under way: the temporary file of
    [mkstemp] exists and one more transfer has been started. *)
Definition in_flight (w : World) : World :=
  set_transfers (S (transfers w)) (set_files ({[mkstemp ext w]} ∪ files w) w).

(** The download branch of [download_to], lines 141 to 170: the stream
    goes to a temporary file, which is removed when the transfer fails or
    comes short, and moved to [download_path] when the download is
    complete.  The move itself is outside the [try]: when it raises,
    nothing is removed.  Creating the temporary file, removing it and
    reading its size are taken to succeed. *)
Definition fetch (url download_path : string) : M unit :=
  fun w =>
    let tmp_file := mkstemp ext w in
    let opened := in_flight w in
    let removed := set_files (files opened ∖ {[tmp_file]}) opened in
    match urlopen ext url w with
    | resp_raises exc =>
        match exn_class exc with
        | HTTPError =>
            (Raise (mk_exn ValueError
                      ("Couldn't download weights from the given URL: " +:+ url
                       +:+ ". Possible cause is: " +:+ exn_text exc)), removed)
        | _ => (Raise exc, removed)
        end
    | resp_body total_size received =>
        if (0 <? total_size)%Z && negb (total_size =? received)%Z then
          (Raise (mk_exn ValueError
                    ("Downloaded file " +:+ tmp_file
                     +:+ " is not the same size as the remote file.")), removed)
        else
          match shutil_move ext tmp_file download_path opened with
          | moved => (Ok tt, set_files ({[download_path]} ∪ files removed) removed)
          | move_raises exc dst_written =>
              (Raise exc,
               if dst_written
               then set_files ({[download_path]} ∪ files opened) opened
               else opened)
          end
    end.

(** [GlobalRuntime.download_to] *)
Definition download_to (url directory : string) (extension : option string) : M string :=
  if is_Some_b extension && Str.endswith url ".ckpt" then
    raise (mk_exn ValueError "Can't load non-safetensor model files.")
  else
    let url_file :=
      CACHE_PREFIX +:+
      Str.replace "." "_" (Str.strip "." (Str.last_segment "/" (urlparse_path ext url))) in
    let url_hash := md5_hexdigest ext url in
    let name := url_file +:+ "-" +:+ url_hash in
    name <- match extension with
            | Some e =>
                if Str.is_empty e then ret name
                else lift (Pathlib.with_suffix name ("." +:+ e))
            | None => ret name
            end ;;
    let download_path := Pathlib.join directory name in
    present <- path_exists download_path ;;
    (if present then ret tt else fetch url download_path) ;;;
    ret download_path.

Definition is_remote (reference : string) : bool :=
  Str.startswith reference "https://" || Str.startswith reference "http://".

(** [GlobalRuntime.download_model_if_needed] *)
Definition download_model_if_needed (model_name : string) : M string :=
  mkdir CHECKPOINTS_DIR ;;;
  if is_remote model_name then
    download_to model_name CHECKPOINTS_DIR (Some "safetensors")
  else ret model_name.

(** [GlobalRuntime.download_lora_weight_if_needed].  The parameter is
    annotated [str]; what [merge_and_apply_loras] passes decides which
    branch of [py_startswith] runs. *)
Definition download_lora_weight_if_needed (lora_weight : pyobj) : M pyobj :=
  mkdir LORA_WEIGHTS_DIR ;;;
  https <- lift (py_startswith lora_weight "https://") ;;
  remote <- (if https then ret true else lift (py_startswith lora_weight "http://")) ;;
  if remote then
    url <- lift (py_as_str lora_weight) ;;
    download_path <- download_to url LORA_WEIGHTS_DIR (Some "safetensors") ;;
    ret (py_str download_path)
  else ret lora_weight.

(* ===================================================================== *)
(** ** AdapterManager *)
(* ===================================================================== *)

(** The attributes of the pipeline object [p]. *)
Definition read_pipe (p : nat) : M Pipe :=
  fun w => (Ok (heap w p), w).

(** The [for ... in zip(lora_paths, lora_scales, adapter_names)] loop of
    [merge_and_apply_loras]. *)
Definition load_each (pipe : nat) (lora_paths : list pyobj) (lora_scales : list Q)
    (adapter_names : list string) : M unit :=
  forM_ (zip (zip lora_paths lora_scales) adapter_names)
        (fun item =>
           let '(lora_path, lora_scale, adapter_name) := item in
           pipe_call pipe (call_load_lora_weights lora_path adapter_name)).

(** Lines 183 to 195 of [merge_and_apply_loras]: the adapter names, the
    loading loop, then one [set_adapters] and one [fuse_lora]. *)
Definition apply_paths (pipe : nat) (loras : list LoraWeight)
    (lora_paths : list pyobj) : M unit :=
  adapter_names <-
    mapM (fun lora_path =>
            nm <- lift (Pathlib.name_of lora_path) ;;
            ret (Str.replace "." "_" nm))
         lora_paths ;;
  let lora_scales := map scale loras in
  load_each pipe lora_paths lora_scales adapter_names ;;;
  pipe_call pipe (call_set_adapters adapter_names (Some lora_scales)) ;;;
  pipe_call pipe call_fuse_lora.

(** [GlobalRuntime.merge_and_apply_loras].  The first comprehension hands
    each element of [loras], a [LoraWeight], to
    [download_lora_weight_if_needed]. *)
Definition merge_and_apply_loras (pipe : nat) (loras : list LoraWeight) : M unit :=
  lora_paths <-
    mapM (fun lora_path => download_lora_weight_if_needed (py_LoraWeight lora_path))
         loras ;;
  apply_paths pipe loras lora_paths.

(** A fresh pipeline object. *)
Definition new_pipe (P : Pipe) : M nat :=
  fun w =>
    let p := next_id w in
    (Ok p, set_next_id (S p) (update_pipe p (fun _ => P) w)).

(** [GlobalRuntime.get_model]; the result is the key under which the
    [Model] object sits in [self.models]. *)
Definition get_model (model_name arch : string) : M ModelKey :=
  let model_key := (model_name, arch) in
  w <- get ;;
  (if negb (dict_mem model_key (models w)) then
     P <- (if Str.endswith model_name ".ckpt" || Str.endswith model_name ".safetensors"
           then
             let pipeline_cls :=
               if String.eqb arch "sdxl" then StableDiffusionXLPipeline
               else StableDiffusionPipeline in
             lift (from_single_file ext pipeline_cls model_name w)
           else lift (from_pretrained ext model_name w)) ;;
     let P := match watermark P with
              | Some _ => with_watermark (Some None) P
              | None => P
              end in
     pipe <- new_pipe P ;;
     modify (fun w' =>
       set_models (dict_set model_key {| pipeline := pipe; last_cache_hit := 0 |}
                            (models w')) w')
   else ret tt) ;;;
  ret model_key.

(** [time.monotonic()] *)
Definition time_monotonic : M Z :=
  fun w => (Ok (clock w), set_clock (clock w + 1) w).

(** [Model.as_base], on the [Model] object stored under [model_key]. *)
Definition as_base (model_key : ModelKey) : M nat :=
  now <- time_monotonic ;;
  w <- get ;;
  match dict_get model_key (models w) with
  | None => raise (missing_key model_key)
  | Some model =>
      modify (fun w' =>
        set_models (dict_set model_key
                      {| pipeline := pipeline model; last_cache_hit := now |}
                      (models w')) w') ;;;
      ret (pipeline model)
  end.

Definition set_scheduler (pipe : nat) (s : Scheduler) : M unit :=
  modify (update_pipe pipe (with_scheduler s)).

Definition newline : string := String (ascii_of_nat 10) "".

(** [dict[key]] on [SUPPORTED_SCHEDULERS] *)
Fixpoint assoc {V} (k : string) (d : list (string * V)) : option V :=
  match d with
  | [] => None
  | (k', v) :: d' => if String.eqb k k' then Some v else assoc k d'
  end.

Definition mem_string (x : string) (l : list string) : bool :=
  existsb (String.eqb x) l.

Fixpoint join_with (sep : string) (l : list string) : string :=
  match l with
  | [] => ""
  | [x] => x
  | x :: l' => x +:+ sep +:+ join_with sep l'
  end.

(** [GlobalRuntime.change_scheduler], a context manager: [body] is the
    block of the [with] statement, run at the [yield].  The text of the
    [KeyError] of [SUPPORTED_SCHEDULERS[scheduler_name]] is the [repr] of
    the name. *)
Definition change_scheduler {A} (pipe : nat) (scheduler_name : option string)
    (body : M A) : M A :=
  match scheduler_name with
  | None => body
  | Some scheduler_name =>
      match assoc scheduler_name SUPPORTED_SCHEDULERS with
      | None => raise (mk_exn KeyError (Str.repr scheduler_name))
      | Some (scheduler_cls_name, scheduler_kwargs) =>
          P <- read_pipe pipe ;;
          if negb (mem_string scheduler_cls_name (compatibles (scheduler P)))
             && negb (String.eqb scheduler_cls_name "LCMScheduler")
          then
            raise (mk_exn ValueError
                     ("The scheduler " +:+ scheduler_name
                      +:+ " is not compatible with this model." +:+ newline
                      +:+ "Compatible schedulers: "
                      +:+ join_with ", " (compatibles (scheduler P))))
          else
            let original_scheduler := scheduler P in
            try_finally
              (w <- get ;;
               fresh <- lift (from_config ext scheduler_cls_name
                                (sched_config original_scheduler) scheduler_kwargs w) ;;
               set_scheduler pipe fresh ;;;
               body)
              (set_scheduler pipe original_scheduler)
      end
  end.

(** The two calls that take the overlays back, lines 281 and 282. *)
Definition reversal (pipe : nat) : M unit :=
  pipe_call pipe call_unfuse_lora ;;;
  pipe_call pipe (call_set_adapters [] None).

(** The [finally] block of [load_model], lines 279 to 290. *)
Definition undo_loras (pipe : nat) (model_key : ModelKey) (loras : list LoraWeight)
    : M unit :=
  if negb (is_nil loras) then
    try_except_else
      (reversal pipe)
      (fun _ => modify (fun w => set_models (dict_remove model_key (models w)) w))
      (pipe_call pipe call_unload_lora_weights)
  else ret tt.

(** The entry of [load_model], lines 251 to 270: the reference is
    resolved, the cache entry found or loaded and refreshed, and its
    pipeline brought to the accelerator.  [clip_skip] is only printed. *)
Definition acquire (model_name : string) (model_architecture : option string)
    : M (ModelKey * nat) :=
  model_name <- download_model_if_needed model_name ;;
  let arch :=
    match model_architecture with
    | None => if Str.contains "xl" (Str.lower model_name) then "sdxl" else "sd"
    | Some a => a
    end in
  model <- get_model model_name arch ;;
  pipe <- as_base model ;;
  pipe <- execute_on_cuda (pipe_to pipe cuda) [] ;;
  ret ((model_name, arch), pipe).

(** The [try ... finally] of [load_model], lines 273 to 290, around the
    block of the caller. *)
Definition with_loras {A} (pipe : nat) (model_key : ModelKey)
    (loras : list LoraWeight) (body : M A) : M A :=
  try_finally
    ((if negb (is_nil loras) then merge_and_apply_loras pipe loras else ret tt) ;;;
     body)
    (undo_loras pipe model_key loras).

(** [GlobalRuntime.load_model], a context manager: [body] is the block
    of the [with] statement and receives the yielded pipeline. *)
Definition load_model {A} (model_name : string) (loras : list LoraWeight)
    (clip_skip : Z) (scheduler_name : option string)
    (model_architecture : option string) (body : nat -> M A) : M A :=
  lease <- acquire model_name model_architecture ;;
  let '(model_key, pipe) := lease in
  change_scheduler pipe scheduler_name
    (with_loras pipe model_key loras (body pipe)).

(** The test of [change_scheduler] that lets a sampler class through. *)
Definition accepted (scheduler_cls_name : string) (P : Pipe) : bool :=
  mem_string scheduler_cls_name (compatibles (scheduler P))
  || String.eqb scheduler_cls_name "LCMScheduler".




(** [GlobalRuntime.upload_images]: [executor.map] hands the results back
    in the order of [images]. *)
Definition upload_images (images : list RawImage) : M (list Image) :=
  mapM (fun image => w <- get ;; lift (Image_from_pil ext image w)) images.

End Runtime.

(* ===================================================================== *)
(** ** The endpoint of [model.py] *)
(* ===================================================================== *)

Module Embedding.
Record t := { path : string; tokens : list string }.
End Embedding.

Inductive ImageSizeInput :=
| size_preset (name : string)
| size_custom (width height : Z).

Module InputParameters.
Record t := {
  model_name : string;
  prompt : string;
  negative_prompt : string;
  loras : list LoraWeight;
  embeddings : list Embedding.t;
  seed : option Z;
  image_size : option ImageSizeInput;
  num_inference_steps : Z;
  guidance_scale : Q;
  clip_skip : Z;
  model_architecture : option string;
  scheduler : option string;
  image_format : string;
  num_images : Z;
  enable_safety_checker : bool
}.
End InputParameters.

Module OutputParameters.
Record t := {
  images : list Image;
  seed : Z;
  has_nsfw_concepts : list bool
}.
End OutputParameters.

(** [HTTPException(status_code=422, detail=detail)]; its text is the
    status code, a colon and the detail. *)
Definition HTTPException_422 (detail : string) : exn :=
  mk_exn (OtherException "HTTPException") ("422: " +:+ detail).

(** [wrap_excs]: a [ValueError] or [TypeError] of the block, or of a
    class that descends from one of them, becomes an [HTTPException] with
    status 422 whose detail is the text of the error. *)
Definition wrap_excs {A} (body : M (St := World) A) : M A :=
  fun w =>
    match body w with
    | (Raise exc, w') =>
        if is_ValueError_or_TypeError exc
        then (Raise (HTTPException_422 (exn_text exc)), w')
        else (Raise exc, w')
    | (Ok a, w') => (Ok a, w')
    end.

(** Python binds the keywords of a call to the parameters of the
    function before the body starts: the first keyword that names no
    parameter is a [TypeError]. *)
Definition unexpected_keyword (qualname : string) (parameters keywords : list string)
    : option exn :=
  match List.find (fun keyword => negb (existsb (String.eqb keyword) parameters)) keywords with
  | Some keyword =>
      Some (mk_exn TypeError
              (qualname +:+ "() got an unexpected keyword argument '" +:+ keyword +:+ "'"))
  | None => None
  end.

(** The parameters of [GlobalRuntime.load_model] after [self], lines 245
    to 249 of [runtime.py]. *)
Definition load_model_parameters : list string :=
  [ "model_name"; "loras"; "clip_skip"; "scheduler"; "model_architecture" ].

(** The keywords of the call of [session.load_model] in
    [generate_image], lines 238 to 242 of [model.py]; the model name is
    passed by position. *)
Definition load_model_keywords : list string :=
  [ "loras"; "embeddings"; "clip_skip"; "scheduler"; "model_architecture" ].

(** [input.seed or torch.seed()], given what [torch.seed()] returns when
    it is called: [None] and [0] are both false. *)
Definition seed_or (input_seed : option Z) (torch_seed : Z) : Z :=
  match input_seed with
  | Some s => if (s =? 0)%Z then torch_seed else s
  | None => torch_seed
  end.

Section Endpoint.

Variable ext : Externals.

(** [fal.toolkit.get_image_size] and [torch.seed()]: the size an input
    denotes, and the number the generator draws in this call. *)
Variable get_image_size : ImageSizeInput -> res (Z * Z).
Variable torch_seed : Z.

(** [torch.Generator("cuda").manual_seed(seed)] refuses some values. *)
Variable manual_seed_raises : Z -> option exn.

(** [model.py] calls [session.run_safety_checker] and imports
    [filter_by], neither of which [runtime.py] defines: they are taken as
    they are called. *)
Variable run_safety_checker : list RawImage -> bool -> M (St := World) (list bool).
Variable filter_by : list bool -> list RawImage -> list RawImage.

(** The call [session.load_model(input.model_name, loras=...,
    embeddings=..., clip_skip=..., scheduler=..., model_architecture=...)]
    of lines 236 to 243, on the [load_model] of [runtime.py]: the
    arguments are bound first, and the body of [load_model] runs when
    they fit its parameters. *)
Definition session_load_model {A} (input : InputParameters.t) (body : nat -> M A) : M A :=
  match unexpected_keyword "GlobalRuntime.load_model"
          load_model_parameters load_model_keywords with
  | Some type_error => raise type_error
  | None =>
      load_model ext
        (InputParameters.model_name input) (InputParameters.loras input)
        (InputParameters.clip_skip input) (InputParameters.scheduler input)
        (InputParameters.model_architecture input) body
  end.

(** [partial(pipe, **kwargs)], the work handed to [execute_on_cuda]. *)
Definition make_inference (pipe : nat) (kw : kwargs) : M (list RawImage) :=
  w <- get ;;
  pipe_call ext pipe (call_pipe kw) ;;;
  ret (pipe_output ext pipe kw w).

(** The block of [with session.load_model(...) as pipe] in
    [generate_image], lines 244 to 273. *)
Definition generate_with (input : InputParameters.t) (image_size : option (Z * Z))
    (pipe : nat) : M OutputParameters.t :=
  let seed := seed_or (InputParameters.seed input) torch_seed in
  match manual_seed_raises seed with
  | Some exc => raise exc
  | None =>
      let kw :=
        [ ("prompt", VStr (InputParameters.prompt input));
          ("negative_prompt", VStr (InputParameters.negative_prompt input));
          ("num_images_per_prompt", VInt (InputParameters.num_images input));
          ("num_inference_steps", VInt (InputParameters.num_inference_steps input));
          ("guidance_scale", VNum (InputParameters.guidance_scale input));
          ("generator", VInt seed) ]
        ++ match image_size with
           | Some (width, height) => [ ("width", VInt width); ("height", VInt height) ]
           | None => []
           end in
      result <- execute_on_cuda ext (make_inference pipe kw) [pipe] ;;
      has_nsfw_concepts <-
        run_safety_checker result (InputParameters.enable_safety_checker input) ;;
      images <- upload_images ext (filter_by has_nsfw_concepts result) ;;
      ret {| OutputParameters.images := images;
             OutputParameters.seed := seed;
             OutputParameters.has_nsfw_concepts := has_nsfw_concepts |}
  end.

(** [generate_image] *)
Definition generate_image (input : InputParameters.t) : M OutputParameters.t :=
  image_size <-
    match InputParameters.image_size input with
    | Some sz => sz <- lift (get_image_size sz) ;; ret (Some sz)
    | None => ret None
    end ;;
  wrap_excs (session_load_model input (generate_with input image_size)).

End Endpoint.

(* ===================================================================== *)
(** ** Concrete collaborators and cache states *)
(* ===================================================================== *)

Definition pndm : Scheduler :=
  {| sched_id := 0; sched_class := "PNDMScheduler"; sched_config := [];
     compatibles := ["EulerDiscreteScheduler"; "DPMSolverMultistepScheduler"] |}.

Definition pipe_on (d : DeviceType) : Pipe :=
  {| device := d; scheduler := pndm; watermark := None; calls := [] |}.

(** Collaborators under which nothing goes wrong: every download
    arrives whole, half of the host memory is free, no call on a pipeline
    raises. *)
Definition quiet : Externals :=
  {| urlparse_path := fun url => url;
     md5_hexdigest := fun _ => "d41d8cd9";
     urlopen := fun _ _ => resp_body 4 4;
     mkstemp := fun _ => "/tmp/tmpfile";
     shutil_move := fun _ _ _ => moved;
     virtual_memory := fun _ => (50, 100)%Z;
     pipe_raises := fun _ _ _ => None;
     from_config := fun cls config kw _ =>
       Ok {| sched_id := 1; sched_class := cls; sched_config := config ++ kw;
             compatibles := [] |};
     from_single_file := fun _ _ _ => Ok (pipe_on cpu);
     from_pretrained := fun _ _ => Ok (pipe_on cpu);
     pipe_output := fun _ _ _ => [7%nat];
     Image_from_pil := fun _ _ => Ok "https://storage/image.png" |}.

Definition with_pipe_raises (f : nat -> PipeCall -> World -> option exn)
    (e : Externals) : Externals :=
  {| urlparse_path := urlparse_path e; md5_hexdigest := md5_hexdigest e;
     urlopen := urlopen e; mkstemp := mkstemp e; shutil_move := shutil_move e;
     virtual_memory := virtual_memory e; pipe_raises := f;
     from_config := from_config e; from_single_file := from_single_file e;
     from_pretrained := from_pretrained e; pipe_output := pipe_output e;
     Image_from_pil := Image_from_pil e |}.

Definition with_virtual_memory (f : World -> Z * Z) (e : Externals) : Externals :=
  {| urlparse_path := urlparse_path e; md5_hexdigest := md5_hexdigest e;
     urlopen := urlopen e; mkstemp := mkstemp e; shutil_move := shutil_move e;
     virtual_memory := f; pipe_raises := pipe_raises e;
     from_config := from_config e; from_single_file := from_single_file e;
     from_pretrained := from_pretrained e; pipe_output := pipe_output e;
     Image_from_pil := Image_from_pil e |}.

Definition with_urlopen (f : string -> World -> Response) (e : Externals) : Externals :=
  {| urlparse_path := urlparse_path e; md5_hexdigest := md5_hexdigest e;
     urlopen := f; mkstemp := mkstemp e; shutil_move := shutil_move e;
     virtual_memory := virtual_memory e; pipe_raises := pipe_raises e;
     from_config := from_config e; from_single_file := from_single_file e;
     from_pretrained := from_pretrained e; pipe_output := pipe_output e;
     Image_from_pil := Image_from_pil e |}.

Definition with_shutil_move (f : string -> string -> World -> Move) (e : Externals)
    : Externals :=
  {| urlparse_path := urlparse_path e; md5_hexdigest := md5_hexdigest e;
     urlopen := urlopen e; mkstemp := mkstemp e; shutil_move := f;
     virtual_memory := virtual_memory e; pipe_raises := pipe_raises e;
     from_config := from_config e; from_single_file := from_single_file e;
     from_pretrained := from_pretrained e; pipe_output := pipe_output e;
     Image_from_pil := Image_from_pil e |}.

(** The server sends 4 of the 10 bytes it announced. *)
Definition short : Externals := with_urlopen (fun _ _ => resp_body 10 4) quiet.


Definition no_space : exn :=
  mk_exn (OtherException "OSError") "[Errno 28] No space left on device".

(** The disk of the cache fills up while the file is moved there. *)
Definition full_disk : Externals :=
  with_shutil_move (fun _ _ _ => move_raises no_space true) quiet.

Definition oom : exn :=
  mk_exn RuntimeError "CUDA out of memory. Tried to allocate 2.00 GiB".

Definition on_cuda (w : World) (p : nat) : bool :=
  device_eqb (device (heap w p)) cuda.

Definition world (ms : list (ModelKey * Model)) (h : nat -> Pipe) : World :=
  {| models := ms; heap := h; next_id := 3; files := ∅; transfers := 0;
     reclaims := 0; clock := 100 |}.

Definition empty_world : World := world [] (fun _ => pipe_on cpu).

(** The unit of work of [generate_image]: a call of the leased
    pipeline, object 0. *)
Definition inference (e : Externals) : M unit := pipe_call e 0 (call_pipe []).

(** Three entries on the accelerator: the lease (object 0) and two
    others, the one under ["older"] leased before the one under
    ["newer"]. *)
Definition two_resident : World :=
  world [ (("leased", "sd"), {| pipeline := 0; last_cache_hit := 30 |});
          (("older", "sd"), {| pipeline := 1; last_cache_hit := 10 |});
          (("newer", "sd"), {| pipeline := 2; last_cache_hit := 20 |}) ]
        (fun _ => pipe_on cuda).

(** The accelerator holds the lease and one of the two others. *)
Definition crowded : Externals :=
  with_pipe_raises
    (fun p c w =>
       match c with
       | call_pipe _ => if on_cuda w 1 && on_cuda w 2 then Some oom else None
       | _ => None
       end) quiet.

(** The lease and one other entry on the accelerator. *)
Definition one_resident : World :=
  world [ (("leased", "sd"), {| pipeline := 0; last_cache_hit := 30 |});
          (("other", "sd"), {| pipeline := 1; last_cache_hit := 10 |}) ]
        (fun _ => pipe_on cuda).

(** The accelerator holds the lease alone. *)
Definition tight : Externals :=
  with_pipe_raises
    (fun p c w =>
       match c with
       | call_pipe _ => if on_cuda w 1 then Some oom else None
       | _ => None
       end) quiet.

(** The accelerator never has room for the work. *)
Definition exhausted : Externals :=
  with_pipe_raises
    (fun p c w => match c with call_pipe _ => Some oom | _ => None end) quiet.

(** One entry on the accelerator and two on the host, the one under
    ["host-older"] leased before the one under ["host-newer"]. *)
Definition host_two : World :=
  world [ (("target", "sd"), {| pipeline := 0; last_cache_hit := 30 |});
          (("host-older", "sd"), {| pipeline := 1; last_cache_hit := 1 |});
          (("host-newer", "sd"), {| pipeline := 2; last_cache_hit := 2 |}) ]
        (fun p => match p with O => pipe_on cuda | _ => pipe_on cpu end).

(** A tenth of the host memory is free while three entries are cached,
    half of it once one is gone. *)
Definition host_pressure : Externals :=
  with_virtual_memory
    (fun w => if (2 <? length (models w))%nat then (10, 100)%Z else (50, 100)%Z)
    quiet.

Definition style_lora : LoraWeight :=
  {| path := "/data/loras/style.safetensors"; scale := 1 |}.





Definition device_assert : exn :=
  mk_exn RuntimeError "CUDA error: device-side assert triggered".

Definition request (s : option Z) : InputParameters.t :=
  {| InputParameters.model_name := "runwayml/stable-diffusion-v1-5";
     InputParameters.prompt := "a red car";
     InputParameters.negative_prompt := "";
     InputParameters.loras := [];
     InputParameters.embeddings := [];
     InputParameters.seed := s;
     InputParameters.image_size := None;
     InputParameters.num_inference_steps := 30;
     InputParameters.guidance_scale := 75 # 10;
     InputParameters.clip_skip := 0;
     InputParameters.model_architecture := None;
     InputParameters.scheduler := None;
     InputParameters.image_format := "png";
     InputParameters.num_images := 1;
     InputParameters.enable_safety_checker := false |}.

(** A safety checker that flags nothing and a filter that keeps every
    image. *)
Definition nothing_flagged (images : list RawImage) (enabled : bool)
    : M (St := World) (list bool) :=
  ret (map (fun _ => false) images).

Definition keep_all (flags : list bool) (images : list RawImage) : list RawImage :=
  images.

(** [generate_image] with these two, a [get_image_size] that accepts
    every size, and [torch.seed()] drawing [drawn]. *)
Definition serve (drawn : Z) (input : InputParameters.t) : M OutputParameters.t :=
  generate_image quiet (fun _ => Ok (1024, 1024)%Z) drawn (fun _ => None)
    nothing_flagged keep_all input.

(** A unit of work that fails with an error that is not about memory. *)
Definition asserting : M (St := World) unit := raise device_assert.

(** The error of [download_to] for a legacy file. *)
Definition not_safetensor : exn :=
  mk_exn ValueError "Can't load non-safetensor model files.".

(* ===================================================================== *)
(** ** Fragments named for the statements below *)
(* ===================================================================== *)

(** The name of the cache file of [download_to], lines 131 to 138: the
    last path segment of the URL with its dots replaced, a dash, the
    digest of the URL, and the extension when one is given. *)
Definition cache_file_name (ext : Externals) (url : string)
    (extension : option string) : res string :=
  let name :=
    (CACHE_PREFIX +:+
     Str.replace "." "_" (Str.strip "." (Str.last_segment "/" (urlparse_path ext url))))
    +:+ "-" +:+ md5_hexdigest ext url in
  match extension with
  | Some e =>
      if Str.is_empty e then Ok name
      else Pathlib.with_suffix name ("." +:+ e)
  | None => Ok name
  end.

(* ===================================================================== *)
(** ** Facts about the monad and the dictionary *)
(* ===================================================================== *)

Lemma fst_bind_Ok {A B} (c : M (St := World) A) (k : A -> M B) w b :
  fst (bind c k w) = Ok b ->
  exists a, fst (c w) = Ok a /\ fst (k a (snd (c w))) = Ok b.
Proof.
  unfold bind. destruct (c w) as [[a|e] w1]; simpl; [eauto|discriminate].
Qed.

Lemma snd_try_finally {A} (body : M (St := World) A) (cleanup : M unit) w :
  snd (try_finally body cleanup w) = snd (cleanup (snd (body w))).
Proof.
  unfold try_finally. destruct (body w) as [r w1]. simpl.
  destruct (cleanup w1) as [[u|e] w2]; reflexivity.
Qed.

Lemma fst_try_finally_Ok {A} (body : M (St := World) A) cleanup w a :
  fst (try_finally body cleanup w) = Ok a -> fst (body w) = Ok a.
Proof.
  unfold try_finally. destruct (body w) as [r w1].
  destruct (cleanup w1) as [[u|e] w2]; simpl; [auto|discriminate].
Qed.

Lemma fst_wrap_excs_Ok {A} (body : M (St := World) A) w a :
  fst (wrap_excs body w) = Ok a -> fst (body w) = Ok a.
Proof.
  unfold wrap_excs. destruct (body w) as [[x|e] w1]; [auto|].
  destruct (is_ValueError_or_TypeError e); discriminate.
Qed.

Lemma key_eqb_refl k : key_eqb k k = true.
Proof. unfold key_eqb. rewrite !String.eqb_refl. reflexivity. Qed.

Lemma dict_get_remove k d : dict_get k (dict_remove k d) = None.
Proof.
  induction d as [|[k' m] d IH]; simpl; [reflexivity|].
  destruct (key_eqb k k') eqn:E; simpl; [exact IH|]. rewrite E. exact IH.
Qed.

Lemma key_eqb_eq a b : key_eqb a b = true <-> a = b.
Proof.
  unfold key_eqb. destruct a as [a1 a2], b as [b1 b2]. simpl.
  rewrite andb_true_iff, !String.eqb_eq. split.
  - intros [-> ->]. reflexivity.
  - intros H. injection H as -> ->. split; reflexivity.
Qed.

Lemma key_eqb_neq a b : key_eqb a b = false <-> a <> b.
Proof.
  rewrite <- key_eqb_eq. destruct (key_eqb a b); split; congruence.
Qed.

Lemma dict_get_remove_ne k k' d :
  k <> k' -> dict_get k (dict_remove k' d) = dict_get k d.
Proof.
  intros Hne. induction d as [|[k0 m0] d IH]; simpl; [reflexivity|].
  destruct (key_eqb k' k0) eqn:E'.
  - apply key_eqb_eq in E'. subst k0.
    apply key_eqb_neq in Hne. rewrite Hne. exact IH.
  - simpl. rewrite IH. reflexivity.
Qed.

(** *** The candidate list is sorted, oldest lease first *)

Lemma insert_by_hit_perm x l : insert_by_hit x l ≡ₚ x :: l.
Proof.
  induction l as [|y l IH]; simpl; [reflexivity|].
  destruct (snd x <=? snd y)%Z; [reflexivity|].
  rewrite IH. apply Permutation_swap.
Qed.

Lemma sort_by_hit_perm l : sort_by_hit l ≡ₚ l.
Proof.
  induction l as [|x l IH]; simpl; [reflexivity|].
  rewrite insert_by_hit_perm, IH. reflexivity.
Qed.

Lemma insert_by_hit_sorted x l :
  StronglySorted hit_le l -> StronglySorted hit_le (insert_by_hit x l).
Proof.
  induction 1 as [|y l Hl IH Hy]; simpl.
  - repeat constructor.
  - destruct (Z.leb_spec (snd x) (snd y)) as [Hxy|Hxy].
    + constructor; [constructor; assumption|].
      constructor; [exact Hxy|].
      eapply Forall_impl; [exact Hy|]. unfold hit_le. simpl. intros z Hz. lia.
    + constructor; [exact IH|].
      rewrite insert_by_hit_perm. constructor; [unfold hit_le; lia|exact Hy].
Qed.

Lemma sort_by_hit_sorted l : StronglySorted hit_le (sort_by_hit l).
Proof.
  induction l as [|x l IH]; simpl; [constructor|].
  apply insert_by_hit_sorted, IH.
Qed.

Lemma sorted_last_greatest (l init : list (ModelKey * Z)) mx :
  StronglySorted hit_le l -> l = init ++ [mx] -> Forall (fun y => hit_le y mx) l.
Proof.
  intros Hs ->. apply StronglySorted_app in Hs as (H & _ & _).
  apply Forall_app. split.
  - apply Forall_forall. intros y Hy. apply H; [exact Hy|]. apply list_elem_of_singleton. reflexivity.
  - constructor; [unfold hit_le; lia|constructor].
Qed.

(* ===================================================================== *)
(** ** ExecutionCoordinator *)
(* ===================================================================== *)

(** C1 (the code departs from this claim).  The entries under ["older"]
    (last hit 10) and ["newer"] (last hit 20) are both evictable, and the
    work runs out of memory while both are on the accelerator.
    [execute_on_cuda] demotes one entry and the retry succeeds, but the
    entry it demotes is the one under ["newer"], the most recently used:
    the candidates are sorted oldest first and [pop()] takes the last. *)
Theorem retry_demotes_most_recently_used :
  let r := execute_on_cuda crowded (inference crowded) [0%nat] two_resident in
  get_loaded_models_by_device cuda [0%nat] two_resident
    = [("older", "sd"); ("newer", "sd")]
  /\ fst r = Ok tt
  /\ calls (heap (snd r) 0) = [call_pipe []; call_pipe []]
  /\ device (heap (snd r) 1) = cuda /\ calls (heap (snd r) 1) = []
  /\ device (heap (snd r) 2) = cpu /\ calls (heap (snd r) 2) = [call_to cpu].
Proof. vm_compute. repeat split. Qed.

(** C2 (the code departs from this claim).  With one evictable entry
    and a work that runs out of memory while that entry is on the
    accelerator, [execute_on_cuda] calls the work once, demotes the
    entry, and fails with "Not enough CUDA memory" without the retry that
    would now succeed: zero retries for k = 1.  With two evictable entries
    and a work that always runs out of memory it calls the work twice:
    one retry for k = 2. *)
Theorem last_demotion_is_not_retried :
  let r := execute_on_cuda tight (inference tight) [0%nat] one_resident in
  let r2 := execute_on_cuda exhausted (inference exhausted) [0%nat] two_resident in
  get_loaded_models_by_device cuda [0%nat] one_resident = [("other", "sd")]
  /\ fst r = Raise (mk_exn RuntimeError
                      "Not enough CUDA memory to complete the operation.")
  /\ calls (heap (snd r) 0) = [call_pipe []]
  /\ device (heap (snd r) 1) = cpu
  /\ fst (inference tight (snd r)) = Ok tt
  /\ length (get_loaded_models_by_device cuda [0%nat] two_resident) = 2%nat
  /\ fst r2 = Raise (mk_exn RuntimeError
                       "Not enough CUDA memory to complete the operation.")
  /\ calls (heap (snd r2) 0) = [call_pipe []; call_pipe []].
Proof. vm_compute. repeat split. Qed.

Lemma pop_order_last (init : list (ModelKey * Z)) target hit :
  rev (map fst (init ++ [(target, hit)])) = target :: rev (map fst init).
Proof. rewrite map_app, rev_app_distr. reflexivity. Qed.

(** In general: on an out-of-memory error at the first attempt the
    entry demoted is the last of the candidate list, and no candidate has
    a later [last_cache_hit] than it. *)
Lemma first_demotion_is_most_recent {R} ext (function : M R) ignored_models
    w error w1 init target hit :
  loaded_with_hits cuda ignored_models w = init ++ [(target, hit)] ->
  function w = (Raise error, w1) ->
  is_RuntimeError error = true ->
  is_cuda_oom error = true ->
  execute_on_cuda ext function ignored_models w
    = (offload_model_to_cpu ext target ;;;
       empty_cache ;;;
       retry_loop ext function false (rev (map fst init))) w1
  /\ Forall (fun candidate => (snd candidate <= hit)%Z)
       (loaded_with_hits cuda ignored_models w).
Proof.
  intros Hlist Hf Hrt Hoom. split.
  - unfold execute_on_cuda, get_loaded_models_by_device.
    rewrite Hlist, pop_order_last. simpl. rewrite Hf, Hrt, Hoom. reflexivity.
  - apply (sorted_last_greatest _ init (target, hit)); [|exact Hlist].
    apply sort_by_hit_sorted.
Qed.

(** In general: when one candidate is left and the work runs out of
    memory, the candidate is demoted and the call fails at once; the
    work is not consulted in the state the demotion leaves. *)
Lemma last_candidate_is_not_retried {R} ext (function : M R) first_try target
    w error w1 w2 :
  function w = (Raise error, w1) ->
  is_RuntimeError error = true ->
  is_cuda_oom error = true ->
  offload_model_to_cpu ext target w1 = (Ok tt, w2) ->
  retry_loop ext function first_try [target] w
  = (Raise (mk_exn RuntimeError "Not enough CUDA memory to complete the operation."),
     set_reclaims (S (S (reclaims w2))) w2).
Proof.
  intros Hf Hrt Hoom Hoff. simpl. rewrite orb_true_r, Hf, Hrt, Hoom. simpl.
  unfold bind at 1. rewrite Hoff. reflexivity.
Qed.

Lemma retry_loop_other_error {R} ext (function : M R) first_try pop_order w error w1 :
  first_try || negb (is_nil pop_order) = true ->
  function w = (Raise error, w1) ->
  is_cuda_oom error = false ->
  retry_loop ext function first_try pop_order w = (Raise error, w1).
Proof.
  intros Hgo Hf Hoom.
  destruct pop_order as [|k rest]; simpl in *.
  - rewrite Hgo, Hf. destruct (is_RuntimeError error); [rewrite Hoom|]; reflexivity.
  - rewrite orb_true_r, Hf, Hoom. destruct (is_RuntimeError error); reflexivity.
Qed.

(** C5.  When the work raises an error whose text contains none of the
    out-of-memory signatures, [execute_on_cuda] ends with that same error
    in the very state the work left: nothing was demoted, no reclamation
    pass was made, the work was not called again.  The same holds at
    every later turn of the retry loop. *)
Theorem other_errors_propagate {R} (ext : Externals) (function : M R)
    (w w1 : World) (error : exn) :
  function w = (Raise error, w1) ->
  is_cuda_oom error = false ->
  (forall ignored_models,
      execute_on_cuda ext function ignored_models w = (Raise error, w1))
  /\ (forall first_try pop_order,
        first_try || negb (is_nil pop_order) = true ->
        retry_loop ext function first_try pop_order w = (Raise error, w1)).
Proof.
  intros Hf Hoom. split.
  - intros ignored_models. unfold execute_on_cuda.
    apply retry_loop_other_error; auto.
  - intros. apply retry_loop_other_error; auto.
Qed.

(** An error about a device-side assertion, raised with two evictable
    entries in the cache, comes back with the cache as it was. *)
Lemma other_errors_propagate_witness :
  is_cuda_oom device_assert = false
  /\ execute_on_cuda quiet asserting [0%nat] two_resident
     = (Raise device_assert, two_resident)
  /\ retry_loop quiet asserting false [("older", "sd")] two_resident
     = (Raise device_assert, two_resident).
Proof.
  split; [reflexivity|].
  pose proof (other_errors_propagate quiet asserting
                two_resident two_resident device_assert eq_refl eq_refl) as [H1 H2].
  split; [apply H1 | apply H2; reflexivity].
Defined.

(* ===================================================================== *)
(** ** EvictionPolicy *)
(* ===================================================================== *)

(** C6 (the code departs from this claim).  The host tier holds the
    entries under ["host-older"] (last hit 1) and ["host-newer"] (last
    hit 2) and less than a quarter of the host memory is free until one
    of them goes.  [offload_model_to_cpu] discards the one under
    ["host-newer"], the most recently used, keeps the least recently used
    one, and then moves the target to the host. *)
Theorem offload_discards_most_recently_used :
  let r := offload_model_to_cpu host_pressure ("target", "sd") host_two in
  get_loaded_models_by_device cpu [] host_two
    = [("host-older", "sd"); ("host-newer", "sd")]
  /\ fst (is_ram_buffer_full host_pressure host_two) = Ok true
  /\ fst r = Ok tt
  /\ map fst (models (snd r)) = [("target", "sd"); ("host-older", "sd")]
  /\ device (heap (snd r) 0) = cpu.
Proof. vm_compute. repeat split. Qed.

Lemma is_ram_buffer_full_reads ext w : snd (is_ram_buffer_full ext w) = w.
Proof.
  unfold is_ram_buffer_full. destruct (virtual_memory ext w) as [available total].
  destruct (Float.true_divide available total); reflexivity.
Qed.

(** In general: the first host entry discarded is the last of the
    host list, and no host entry has a later [last_cache_hit]. *)
Lemma first_discard_is_most_recent ext model_id w init victim hit :
  loaded_with_hits cpu [] w = init ++ [(victim, hit)] ->
  fst (is_ram_buffer_full ext w) = Ok true ->
  offload_loop ext model_id (rev (get_loaded_models_by_device cpu [] w)) w
    = (del_model victim ;;; offload_loop ext model_id (rev (map fst init))) w
  /\ Forall (fun candidate => (snd candidate <= hit)%Z) (loaded_with_hits cpu [] w).
Proof.
  intros Hlist Hfull. split.
  - unfold get_loaded_models_by_device. rewrite Hlist, pop_order_last. simpl.
    unfold bind at 1.
    pose proof (is_ram_buffer_full_reads ext w) as Hw.
    destruct (is_ram_buffer_full ext w) as [r w']. simpl in Hfull, Hw. subst.
    reflexivity.
  - apply (sorted_last_greatest _ init (victim, hit)); [|exact Hlist].
    apply sort_by_hit_sorted.
Qed.

Lemma dict_set_keys k m m' d :
  dict_get k d = Some m -> map fst (dict_set k m' d) = map fst d.
Proof.
  induction d as [|[k0 m0] d IH]; simpl; [discriminate|].
  destruct (key_eqb k k0); simpl; [reflexivity|].
  intros H. rewrite (IH H). reflexivity.
Qed.

(** With at least a quarter of the host memory free nothing is
    discarded: the pipeline of the target is moved to the host and the
    entry is stored back under its key. *)
Lemma offload_with_headroom ext model_id model w :
  fst (is_ram_buffer_full ext w) = Ok false ->
  dict_get model_id (models w) = Some model ->
  pipe_raises ext (pipeline model) (call_to cpu) w = None ->
  offload_model_to_cpu ext model_id w
  = (Ok tt,
     let moved :=
       update_pipe (pipeline model) (with_device cpu)
         (update_pipe (pipeline model) (log_call (call_to cpu)) w) in
     set_models
       (dict_set model_id
          {| pipeline := pipeline model; last_cache_hit := last_cache_hit model |}
          (models w))
       moved).
Proof.
  intros Hfull Hget Hto. unfold offload_model_to_cpu.
  unfold bind at 1, get. unfold bind at 1.
  assert (Hloop : forall pop_order,
             offload_loop ext model_id pop_order w = (Ok false, w)).
  { intros pop_order.
    pose proof (is_ram_buffer_full_reads ext w) as Hw.
    destruct pop_order; simpl; unfold bind;
      destruct (is_ram_buffer_full ext w) as [r w0]; simpl in Hfull, Hw;
      subst; reflexivity. }
  rewrite Hloop. unfold bind at 1, get. rewrite Hget.
  unfold pipe_to, bind, pipe_call, modify, ret. rewrite Hto. reflexivity.
Qed.

(** With less than a quarter free and an empty host tier the target is
    deleted from the dictionary and its pipeline is left where it is. *)
Lemma offload_without_host_entries ext model_id model w :
  fst (is_ram_buffer_full ext w) = Ok true ->
  get_loaded_models_by_device cpu [] w = [] ->
  dict_get model_id (models w) = Some model ->
  offload_model_to_cpu ext model_id w
  = (Ok tt, set_models (dict_remove model_id (models w)) w).
Proof.
  intros Hfull Hhost Hget. unfold offload_model_to_cpu.
  unfold bind at 1, get. rewrite Hhost. simpl.
  unfold bind at 1. unfold bind at 1.
  pose proof (is_ram_buffer_full_reads ext w) as Hw.
  destruct (is_ram_buffer_full ext w) as [r w0]. simpl in Hfull, Hw. subst.
  unfold bind, del_model, dict_mem. rewrite Hget. reflexivity.
Qed.

(* ===================================================================== *)
(** ** AdapterManager *)
(* ===================================================================== *)

(** C3.  When a named sampler is asked for, is one of
    [SUPPORTED_SCHEDULERS] and passes the compatibility test, the sampler
    of the pipeline after [change_scheduler] is the sampler it had before,
    whatever the block does and however it ends: by returning, by
    raising, or by never starting because [from_config] raised. *)
Theorem change_scheduler_restores {A} (ext : Externals) (pipe : nat)
    (scheduler_name cls : string) (kw : kwargs) (body : M A) (w : World) :
  assoc scheduler_name SUPPORTED_SCHEDULERS = Some (cls, kw) ->
  accepted cls (heap w pipe) = true ->
  scheduler (heap (snd (change_scheduler ext pipe (Some scheduler_name) body w)) pipe)
  = scheduler (heap w pipe).
Proof.
  intros Hname Hacc. unfold change_scheduler. rewrite Hname.
  unfold bind at 1, read_pipe. unfold accepted in Hacc.
  rewrite <- negb_orb, Hacc. cbn [negb].
  rewrite snd_try_finally.
  unfold set_scheduler at 2, modify. simpl.
  rewrite Nat.eqb_refl. reflexivity.
Qed.

(** The override "Euler" around a block that raises: the error comes
    out and the pipeline has its first sampler again. *)
Lemma change_scheduler_restores_witness :
  assoc "Euler" SUPPORTED_SCHEDULERS = Some ("EulerDiscreteScheduler", [])
  /\ accepted "EulerDiscreteScheduler" (heap one_resident 0) = true
  /\ fst (change_scheduler quiet 0 (Some "Euler") asserting one_resident)
     = Raise device_assert
  /\ scheduler (heap (snd (change_scheduler quiet 0 (Some "Euler") asserting
                             one_resident)) 0)
     = pndm.
Proof.
  split; [reflexivity|]. split; [reflexivity|]. split; [reflexivity|].
  exact (change_scheduler_restores quiet 0 "Euler" "EulerDiscreteScheduler" []
           asserting one_resident eq_refl eq_refl).
Defined.







(** C7 (the code departs from this claim).  [merge_and_apply_loras]
    passes the elements of [loras], which are [LoraWeight] objects, to
    [download_lora_weight_if_needed], which calls [startswith] on them.
    For every non-empty list the call therefore ends with an
    [AttributeError] before any weights are loaded: the pipeline objects
    are untouched, no scale is set and nothing is fused. *)
Theorem merge_and_apply_loras_raises (ext : Externals) (pipe : nat)
    (lora : LoraWeight) (loras : list LoraWeight) (w : World) :
  let r := merge_and_apply_loras ext pipe (lora :: loras) w in
  fst r = Raise (no_attribute "LoraWeight" "startswith")
  /\ heap (snd r) = heap w
  /\ calls (heap (snd r) pipe) = calls (heap w pipe).
Proof. simpl. repeat split. Qed.

Lemma adapter_names_of_texts (paths : list string) (w : World) :
  mapM (fun lora_path =>
          nm <- lift (Pathlib.name_of lora_path) ;;
          ret (Str.replace "." "_" nm))
       (map py_str paths) w
  = (Ok (map (fun s => Str.replace "." "_" (Pathlib.name s)) paths), w).
Proof.
  revert w. induction paths as [|s paths IH]; intros w; simpl; [reflexivity|].
  unfold bind at 1. unfold bind at 1, lift, Pathlib.name_of.
  unfold ret at 1. unfold bind at 1. rewrite IH. reflexivity.
Qed.

Lemma calls_log p c w :
  calls (heap (update_pipe p (log_call c) w) p) = calls (heap w p) ++ [c].
Proof. simpl. rewrite Nat.eqb_refl. reflexivity. Qed.

Lemma pipe_call_quiet ext pipe c w :
  pipe_raises ext pipe c w = None ->
  pipe_call ext pipe c w = (Ok tt, update_pipe pipe (log_call c) w).
Proof. intros H. unfold pipe_call. rewrite H. reflexivity. Qed.

Lemma load_each_calls ext pipe lora_paths lora_scales adapter_names w :
  (forall c v, pipe_raises ext pipe c v = None) ->
  exists w',
    load_each ext pipe lora_paths lora_scales adapter_names w = (Ok tt, w')
    /\ calls (heap w' pipe)
       = calls (heap w pipe)
         ++ map (fun item : pyobj * Q * string =>
                   call_load_lora_weights (fst (fst item)) (snd item))
                (zip (zip lora_paths lora_scales) adapter_names).
Proof.
  intros Hquiet. unfold load_each.
  generalize (zip (zip lora_paths lora_scales) adapter_names) as items.
  intros items. revert w.
  induction items as [|[[lora_path lora_scale] adapter_name] items IH];
    intros w; simpl.
  - exists w. split; [reflexivity|]. rewrite app_nil_r. reflexivity.
  - unfold bind. rewrite pipe_call_quiet by apply Hquiet.
    destruct (IH (update_pipe pipe
                    (log_call (call_load_lora_weights lora_path adapter_name)) w))
      as (w' & H1 & H2).
    exists w'. split; [exact H1|].
    rewrite H2, calls_log, <- app_assoc. reflexivity.
Qed.

(** Once the paths are texts and no call raises, lines 183 to 195 load
    every overlay, in order, then set the scales in one call and fuse
    everything in one call. *)
Lemma apply_paths_order ext pipe loras (paths : list string) w :
  (forall c v, pipe_raises ext pipe c v = None) ->
  let adapter_names := map (fun s => Str.replace "." "_" (Pathlib.name s)) paths in
  let lora_scales := map scale loras in
  exists w',
    apply_paths ext pipe loras (map py_str paths) w = (Ok tt, w')
    /\ calls (heap w' pipe)
       = calls (heap w pipe)
         ++ map (fun item : pyobj * Q * string =>
                   call_load_lora_weights (fst (fst item)) (snd item))
                (zip (zip (map py_str paths) lora_scales) adapter_names)
         ++ [call_set_adapters adapter_names (Some lora_scales); call_fuse_lora].
Proof.
  intros Hquiet adapter_names lora_scales. unfold apply_paths.
  unfold bind at 1. rewrite adapter_names_of_texts.
  fold adapter_names. fold lora_scales.
  destruct (load_each_calls ext pipe (map py_str paths) lora_scales adapter_names
              w Hquiet) as (w1 & Hload & Hcalls).
  unfold bind at 1. rewrite Hload.
  unfold bind at 1. rewrite pipe_call_quiet by apply Hquiet.
  rewrite pipe_call_quiet by apply Hquiet.
  eexists. split; [reflexivity|].
  rewrite !calls_log, Hcalls, <- !app_assoc. reflexivity.
Qed.

(* ===================================================================== *)
(** ** WeightResolver *)
(* ===================================================================== *)

Lemma dict_get_set k m d : dict_get k (dict_set k m d) = Some m.
Proof.
  induction d as [|[k' m'] d IH]; simpl.
  - rewrite key_eqb_refl. reflexivity.
  - destruct (key_eqb k k') eqn:E; simpl; rewrite E; [reflexivity|exact IH].
Qed.

(** C8, as the code has it.  A reference that ends in [.ckpt] is
    refused only when it is remote: resolving it as a model or as an
    overlay then raises [ValueError] before any transfer, having done no
    more than create the cache directory.  A local reference that ends in
    [.ckpt] is returned unchanged by the resolution, and [get_model]
    loads it with the single-file loader and caches it. *)
Theorem remote_ckpt_rejected_local_ckpt_loaded (ext : Externals)
    (reference : string) (w : World) :
  Str.endswith reference ".ckpt" = true ->
  (is_remote reference = true ->
     download_model_if_needed ext reference w
       = (Raise not_safetensor, set_files ({[CHECKPOINTS_DIR]} ∪ files w) w)
     /\ download_lora_weight_if_needed ext (py_str reference) w
       = (Raise not_safetensor, set_files ({[LORA_WEIGHTS_DIR]} ∪ files w) w))
  /\ (is_remote reference = false ->
        download_model_if_needed ext reference w
          = (Ok reference, set_files ({[CHECKPOINTS_DIR]} ∪ files w) w)
        /\ forall arch v P,
             dict_mem (reference, arch) (models v) = false ->
             from_single_file ext
               (if String.eqb arch "sdxl" then StableDiffusionXLPipeline
                else StableDiffusionPipeline) reference v = Ok P ->
             fst (get_model ext reference arch v) = Ok (reference, arch)
             /\ dict_mem (reference, arch)
                  (models (snd (get_model ext reference arch v))) = true).
Proof.
  intros Hckpt. split.
  - intros Hremote. split.
    + unfold download_model_if_needed, bind, mkdir, modify.
      rewrite Hremote. unfold download_to. rewrite Hckpt. reflexivity.
    + unfold download_lora_weight_if_needed, bind, mkdir, modify, lift.
      unfold is_remote in Hremote. simpl py_startswith. cbv iota beta.
      destruct (Str.startswith reference "https://"); simpl in Hremote |- *.
      * unfold download_to. rewrite Hckpt. reflexivity.
      * rewrite Hremote. unfold download_to. rewrite Hckpt. reflexivity.
  - intros Hlocal. split.
    + unfold download_model_if_needed, bind, mkdir, modify.
      rewrite Hlocal. reflexivity.
    + intros arch v P Hnew Hload.
      assert (Hget : exists v',
                 get_model ext reference arch v = (Ok (reference, arch), v')
                 /\ exists m, models v' = dict_set (reference, arch) m (models v)).
      { unfold get_model, bind, get, lift. rewrite Hnew. cbn [negb].
        rewrite Hckpt. cbn [orb]. rewrite Hload.
        unfold new_pipe, modify, ret. eexists. split; [reflexivity|].
        eexists. reflexivity. }
      destruct Hget as (v' & -> & m & Hm). simpl.
      unfold dict_mem. rewrite Hm, dict_get_set. split; reflexivity.
Qed.

(** A remote and a local reference to a legacy file. *)
Lemma remote_ckpt_rejected_local_ckpt_loaded_witness :
  Str.endswith "https://host/legacy.ckpt" ".ckpt" = true
  /\ is_remote "https://host/legacy.ckpt" = true
  /\ fst (download_model_if_needed quiet "https://host/legacy.ckpt" empty_world)
     = Raise not_safetensor
  /\ Str.endswith "/models/legacy.ckpt" ".ckpt" = true
  /\ is_remote "/models/legacy.ckpt" = false
  /\ fst (get_model quiet "/models/legacy.ckpt" "sd" empty_world)
     = Ok ("/models/legacy.ckpt", "sd").
Proof.
  split; [reflexivity|]. split; [reflexivity|].
  split.
  { destruct (remote_ckpt_rejected_local_ckpt_loaded quiet
                "https://host/legacy.ckpt" empty_world eq_refl) as [Hremote _].
    destruct (Hremote eq_refl) as [H _]. rewrite H. reflexivity. }
  split; [reflexivity|]. split; [reflexivity|].
  destruct (remote_ckpt_rejected_local_ckpt_loaded quiet
              "/models/legacy.ckpt" empty_world eq_refl) as [_ Hlocal].
  destruct (Hlocal eq_refl) as [_ H].
  exact (proj1 (H "sd" empty_world (pipe_on cpu) eq_refl eq_refl)).
Defined.

(** C8 as stated does not hold: the local reference
    ["/models/legacy.ckpt"] is resolved, loaded and leased without any
    error. *)
Lemma local_ckpt_is_not_rejected :
  ~ (forall reference w,
       Str.endswith reference ".ckpt" = true ->
       is_Ok (fst (load_model quiet reference [] 0 None None
                     (fun pipe => ret pipe) w)) = false).
Proof.
  intros H. specialize (H "/models/legacy.ckpt" empty_world eq_refl).
  vm_compute in H. discriminate H.
Qed.

Lemma fetch_publishes ext url download_path w w1 :
  fetch ext url download_path w = (Ok tt, w1) ->
  download_path ∈ files w1 /\ transfers w1 = S (transfers w).
Proof.
  unfold fetch. intros H.
  destruct (urlopen ext url w) as [exc|total_size received].
  - destruct (exn_class exc); discriminate.
  - destruct (_ && _); [discriminate|].
    destruct (shutil_move ext _ _ _); [|discriminate].
    injection H as <-. simpl. split; [set_solver|reflexivity].
Qed.

Lemma download_to_again ext url directory extension w w1 local_path :
  download_to ext url directory extension w = (Ok local_path, w1) ->
  download_to ext url directory extension w1 = (Ok local_path, w1)
  /\ (transfers w1 <= S (transfers w))%nat.
Proof.
  unfold download_to.
  destruct (is_Some_b extension && Str.endswith url ".ckpt"); [discriminate|].
  unfold bind at 1 4.
  set (named := match extension with Some e => _ | None => _ end).
  assert (Hpure : forall v, named v = (fst (named w), v)).
  { intros v. subst named. destruct extension as [e|]; [|reflexivity].
    destruct (Str.is_empty e); reflexivity. }
  rewrite (Hpure w), (Hpure w1). simpl.
  destruct (fst (named w)) as [name|e]; [|discriminate].
  unfold bind at 1 3. unfold path_exists at 1 2.
  destruct (bool_decide (Pathlib.join directory name ∈ files w)) eqn:Hpresent.
  - unfold bind, ret. intros H. injection H as <- <-. rewrite Hpresent.
    split; [reflexivity|lia].
  - unfold bind at 1.
    destruct (fetch ext url (Pathlib.join directory name) w) as [r w2] eqn:Hfetch.
    destruct r as [[]|e]; [|discriminate].
    unfold ret. intros H. injection H as <- <-.
    apply fetch_publishes in Hfetch as [Hin Htr].
    rewrite bool_decide_eq_true_2 by exact Hin.
    unfold bind, ret. split; [reflexivity|lia].
Qed.

(** C9.  When a resolution of a remote reference returns a local
    path, resolving the same reference again from the state it left
    returns the same path and changes nothing: the file published by the
    first resolution is found and no transfer is made.  The two
    resolutions together make at most one transfer. *)
Theorem download_to_twice (ext : Externals) (url directory : string)
    (extension : option string) (w : World) (local_path : string) :
  fst (download_to ext url directory extension w) = Ok local_path ->
  let w1 := snd (download_to ext url directory extension w) in
  download_to ext url directory extension w1 = (Ok local_path, w1)
  /\ (transfers w1 <= S (transfers w))%nat.
Proof.
  destruct (download_to ext url directory extension w) as [r w1] eqn:Hfirst.
  simpl. intros ->. exact (download_to_again _ _ _ _ _ _ _ Hfirst).
Qed.

(** Two resolutions of one overlay URL from an empty disk: one
    transfer, the same path twice. *)
Lemma download_to_twice_witness :
  let url := "https://host/models/style.v2.safetensors" in
  let first := download_to quiet url LORA_WEIGHTS_DIR (Some "safetensors") empty_world in
  fst first = Ok "/data/loras/style_v2_safetensors-d41d8cd9.safetensors"
  /\ transfers (snd first) = 1%nat
  /\ download_to quiet url LORA_WEIGHTS_DIR (Some "safetensors") (snd first)
     = (Ok "/data/loras/style_v2_safetensors-d41d8cd9.safetensors", snd first).
Proof.
  split; [vm_compute; reflexivity|]. split; [vm_compute; reflexivity|].
  apply (download_to_twice quiet "https://host/models/style.v2.safetensors"
           LORA_WEIGHTS_DIR (Some "safetensors") empty_world
           "/data/loras/style_v2_safetensors-d41d8cd9.safetensors").
  vm_compute. reflexivity.
Defined.

(* ===================================================================== *)
(** ** The seed of a generation *)
(* ===================================================================== *)

Lemma generate_with_seed ext torch_seed manual_seed_raises run_safety_checker
    filter_by input image_size pipe w out :
  fst (generate_with ext torch_seed manual_seed_raises run_safety_checker filter_by
         input image_size pipe w) = Ok out ->
  OutputParameters.seed out = seed_or (InputParameters.seed input) torch_seed.
Proof.
  unfold generate_with.
  destruct (manual_seed_raises _); [discriminate|].
  intros H.
  apply fst_bind_Ok in H as (result & _ & H).
  apply fst_bind_Ok in H as (flags & _ & H).
  apply fst_bind_Ok in H as (images & _ & H).
  injection H as <-. reflexivity.
Qed.

Lemma seed_or_falsy input_seed drawn :
  input_seed = None \/ input_seed = Some 0%Z -> seed_or input_seed drawn = drawn.
Proof. intros [->| ->]; reflexivity. Qed.

Lemma seed_or_truthy s drawn : s <> 0%Z -> seed_or (Some s) drawn = s.
Proof.
  intros Hs. unfold seed_or. destruct (Z.eqb_spec s 0); [contradiction|reflexivity].
Qed.

Lemma seed_or_fixed input_seed :
  (forall drawn, Some (seed_or input_seed drawn) = input_seed)
  <-> exists s, input_seed = Some s /\ s <> 0%Z.
Proof.
  split.
  - intros H. destruct input_seed as [s|]; [|specialize (H 0%Z); discriminate].
    exists s. split; [reflexivity|]. intros ->.
    specialize (H 1%Z). discriminate.
  - intros (s & -> & Hs) drawn. rewrite seed_or_truthy by exact Hs. reflexivity.
Qed.

(** For one given draw, the chosen seed is the seed of the input when
    that is a non-zero integer, and otherwise only if the input is 0 and
    the draw is 0 as well. *)
Lemma seed_or_coincides input_seed drawn :
  Some (seed_or input_seed drawn) = input_seed
  <-> (exists s, input_seed = Some s /\ s <> 0%Z)
      \/ (input_seed = Some 0%Z /\ drawn = 0%Z).
Proof.
  split.
  - destruct input_seed as [s|]; [|discriminate].
    unfold seed_or. destruct (Z.eqb_spec s 0) as [->|Hs].
    + intros H. injection H as ->. right. split; reflexivity.
    + intros _. left. exists s. split; [reflexivity|exact Hs].
  - intros [(s & -> & Hs)|[-> ->]]; [|reflexivity].
    rewrite seed_or_truthy by exact Hs. reflexivity.
Qed.

(** C10 (the code departs from this claim).  [generate_image] passes
    the keyword [embeddings] to [session.load_model], and the
    [load_model] of [runtime.py] has no such parameter: binding the
    arguments raises [TypeError] inside [wrap_excs], before the model is
    resolved and before line 244 draws a seed.  So no request gets an
    output: the call raises, with the state of the runtime untouched, and
    unless [get_image_size] has already refused the size, what it raises
    is the [HTTPException] made of that [TypeError].  The block itself,
    were it given a pipeline, returns the seed [input.seed or
    torch.seed()] as the claim says. *)
Theorem generate_image_never_returns (ext : Externals)
    (get_image_size : ImageSizeInput -> res (Z * Z)) (torch_seed : Z)
    (manual_seed_raises : Z -> option exn)
    (run_safety_checker : list RawImage -> bool -> M (list bool))
    (filter_by : list bool -> list RawImage -> list RawImage)
    (input : InputParameters.t) (w : World) :
  let r := generate_image ext get_image_size torch_seed manual_seed_raises
             run_safety_checker filter_by input w in
  is_Ok (fst r) = false
  /\ snd r = w
  /\ ((forall size, InputParameters.image_size input = Some size ->
          is_Ok (get_image_size size) = true) ->
      exists detail, fst r = Raise (HTTPException_422 detail))
  /\ (forall image_size pipe v out,
        fst (generate_with ext torch_seed manual_seed_raises run_safety_checker
               filter_by input image_size pipe v) = Ok out ->
        OutputParameters.seed out = seed_or (InputParameters.seed input) torch_seed).
Proof.
  assert (Hcall : forall image_size,
             wrap_excs
               (session_load_model ext input
                  (generate_with ext torch_seed manual_seed_raises run_safety_checker
                     filter_by input image_size)) w
             = (Raise (HTTPException_422
                         "GlobalRuntime.load_model() got an unexpected keyword argument 'embeddings'"),
                w))
    by reflexivity.
  assert (Hblock : forall image_size pipe v out,
             fst (generate_with ext torch_seed manual_seed_raises run_safety_checker
                    filter_by input image_size pipe v) = Ok out ->
             OutputParameters.seed out = seed_or (InputParameters.seed input) torch_seed)
    by (intros image_size pipe v out; apply generate_with_seed).
  cbv zeta. unfold generate_image, bind.
  destruct (InputParameters.image_size input) as [size|].
  - unfold lift. destruct (get_image_size size) as [sz|e] eqn:Hsize.
    + unfold ret. rewrite Hcall.
      split; [reflexivity|]. split; [reflexivity|]. split; [|exact Hblock].
      intros _. eexists. reflexivity.
    + simpl. split; [reflexivity|]. split; [reflexivity|]. split; [|exact Hblock].
      intros H. specialize (H size eq_refl). rewrite Hsize in H. discriminate H.
  - unfold ret. rewrite Hcall.
    split; [reflexivity|]. split; [reflexivity|]. split; [|exact Hblock].
    intros _. eexists. reflexivity.
Qed.

(** The requests with the seeds [None], 0 and 7 all end in an
    [HTTPException], none with an output, and the cache is as it was. *)
Lemma generate_image_never_returns_witness :
  let r := serve 42 (request None) one_resident in
  is_Ok (fst r) = false
  /\ snd r = one_resident
  /\ (exists detail, fst r = Raise (HTTPException_422 detail))
  /\ is_Ok (fst (serve 42 (request (Some 0%Z)) one_resident)) = false
  /\ is_Ok (fst (serve 42 (request (Some 7%Z)) one_resident)) = false.
Proof.
  assert (H : forall s,
             is_Ok (fst (serve 42 (request s) one_resident)) = false
             /\ snd (serve 42 (request s) one_resident) = one_resident
             /\ exists detail,
                  fst (serve 42 (request s) one_resident)
                  = Raise (HTTPException_422 detail)).
  { intros s. unfold serve.
    destruct (generate_image_never_returns quiet (fun _ => Ok (1024, 1024)%Z) 42
                (fun _ => None) nothing_flagged keep_all (request s) one_resident)
      as (Hnone & Hstate & Herror & _).
    split; [exact Hnone|]. split; [exact Hstate|]. apply Herror. reflexivity. }
  cbv zeta.
  destruct (H None) as (H1 & H2 & H3).
  split; [exact H1|]. split; [exact H2|]. split; [exact H3|].
  split; [exact (proj1 (H (Some 0%Z)))|exact (proj1 (H (Some 7%Z)))].
Defined.

(* ===================================================================== *)
(** ** Further properties of the cache and the eviction policy *)
(* ===================================================================== *)

Lemma device_eqb_eq a b : device_eqb a b = true <-> a = b.
Proof. destruct a, b; simpl; split; congruence. Qed.

Lemma existsb_nat_In (n : nat) (l : list nat) :
  existsb (Nat.eqb n) l = true <-> In n l.
Proof.
  rewrite existsb_exists. split.
  - intros (x & Hx & Heq). apply Nat.eqb_eq in Heq. subst. exact Hx.
  - intros H. exists n. split; [exact H|apply Nat.eqb_refl].
Qed.

Lemma sorted_hits_ascending (l : list (ModelKey * Z)) :
  StronglySorted hit_le l -> StronglySorted Z.le (map snd l).
Proof.
  induction 1 as [|x l Hl IH Hx]; simpl; constructor; [exact IH|].
  apply Forall_forall. intros t Ht. apply list_elem_of_In in Ht.
  apply in_map_iff in Ht as (y & <- & Hy).
  rewrite Forall_forall in Hx. apply Hx. apply list_elem_of_In. exact Hy.
Qed.

Lemma loaded_models_In dev ignored_models w k :
  In k (get_loaded_models_by_device dev ignored_models w)
  <-> exists m, In (k, m) (models w)
                /\ device (heap w (pipeline m)) = dev
                /\ ~ In (pipeline m) ignored_models.
Proof.
  unfold get_loaded_models_by_device, loaded_with_hits.
  set (on_device := fun km : ModelKey * Model => device_eqb (model_device w (snd km)) dev).
  set (not_ignored := fun km : ModelKey * Model =>
                        negb (existsb (Nat.eqb (pipeline (snd km))) ignored_models)).
  set (selected := List.filter not_ignored (List.filter on_device (models w))).
  set (hits := map (fun km : ModelKey * Model => (fst km, last_cache_hit (snd km))) selected).
  rewrite in_map_iff. split.
  - intros ([k' t] & Hk & Hin). simpl in Hk. subst k'.
    apply (Permutation_in _ (sort_by_hit_perm hits)) in Hin.
    apply in_map_iff in Hin as ([k' m] & Heq & Hsel). simpl in Heq.
    injection Heq as -> _.
    apply filter_In in Hsel as [Hsel Hni]. apply filter_In in Hsel as [Hin Hdev].
    exists m. split; [exact Hin|]. split.
    + apply device_eqb_eq. exact Hdev.
    + unfold not_ignored in Hni. simpl in Hni. apply negb_true_iff in Hni.
      intros Hig. apply existsb_nat_In in Hig. congruence.
  - intros (m & Hin & Hdev & Hni). exists (k, last_cache_hit m). split; [reflexivity|].
    apply (Permutation_in _ (Permutation_sym (sort_by_hit_perm hits))).
    apply in_map_iff. exists (k, m). split; [reflexivity|].
    apply filter_In. split.
    + apply filter_In. split; [exact Hin|]. apply device_eqb_eq. exact Hdev.
    + unfold not_ignored. simpl. apply negb_true_iff.
      destruct (existsb (Nat.eqb (pipeline m)) ignored_models) eqn:E; [|reflexivity].
      apply existsb_nat_In in E. contradiction.
Qed.

(** What [get_loaded_models_by_device] returns: exactly the keys of the
    entries whose pipeline sits on the device and is not ignored, in
    the order of ascending [last_cache_hit], and never more keys than
    the cache has entries. *)
Theorem loaded_models_characterised (dev : DeviceType) (ignored_models : list nat)
    (w : World) :
  (forall k,
      In k (get_loaded_models_by_device dev ignored_models w)
      <-> exists m, In (k, m) (models w)
                    /\ device (heap w (pipeline m)) = dev
                    /\ ~ In (pipeline m) ignored_models)
  /\ StronglySorted Z.le
       (map snd (loaded_with_hits dev ignored_models w))
  /\ (length (get_loaded_models_by_device dev ignored_models w)
      <= length (models w))%nat.
Proof.
  split; [intros k; apply loaded_models_In|]. split.
  - apply sorted_hits_ascending, sort_by_hit_sorted.
  - unfold get_loaded_models_by_device, loaded_with_hits.
    rewrite length_map, (Permutation_length (sort_by_hit_perm _)), length_map.
    etransitivity; [apply filter_length_le|]. apply filter_length_le.
Qed.

Lemma round_half_even_lt (n d K : Z) :
  0 < d -> Z.even K = true ->
  (Float.round_half_even n d <? K)%Z = (2 * n <? (2 * K - 1) * d)%Z.
Proof.
  intros Hd HK. unfold Float.round_half_even.
  pose proof (Z.div_mod n d ltac:(lia)) as Hn.
  pose proof (Z.mod_pos_bound n d Hd) as Hr.
  set (q := n / d) in *. set (r := n mod d) in *.
  assert (Hq : q = K - 1 -> Z.even q = false).
  { intros ->. rewrite Z.even_sub, HK. reflexivity. }
  destruct (Z.ltb_spec (2 * r) d); [|destruct (Z.ltb_spec d (2 * r))];
    [| |destruct (Z.even q) eqn:Hev];
    destruct (Z.ltb_spec (2 * n) ((2 * K - 1) * d));
    match goal with
    | |- (?x <? ?y)%Z = _ => destruct (Z.ltb_spec x y)
    end; try reflexivity; exfalso; nia.
Qed.

Lemma round_half_even_le (n d : Z) :
  0 < d -> 2 * Float.round_half_even n d * d <= 2 * n + d.
Proof.
  intros Hd. unfold Float.round_half_even.
  pose proof (Z.div_mod n d ltac:(lia)) as Hn.
  pose proof (Z.mod_pos_bound n d Hd) as Hr.
  set (q := n / d) in *. set (r := n mod d) in *.
  destruct (Z.ltb_spec (2 * r) d); [|destruct (Z.ltb_spec d (2 * r))];
    [| |destruct (Z.even q)]; nia.
Qed.

Lemma exponent_of_fraction (a b : Z) :
  0 < a <= b ->
  let E := Float.exponent a b in
  E <= 0 /\ b <= a * 2 ^ (- E) /\ a * 2 ^ (- E) < 2 * b.
Proof.
  intros [Ha Hab]. cbv zeta. unfold Float.exponent, Float.pow2_le, Float.scale.
  assert (Hb : 0 < b) by lia.
  pose proof (Z.log2_spec a Ha) as [Ha1 Ha2].
  pose proof (Z.log2_spec b Hb) as [Hb1 Hb2].
  pose proof (Z.log2_nonneg a) as Hla. pose proof (Z.log2_nonneg b) as Hlb.
  pose proof (Z.log2_le_mono a b Hab) as Hle.
  set (la := Z.log2 a) in *. set (lb := Z.log2 b) in *.
  rewrite Z.pow_succ_r in Ha2, Hb2 by lia.
  assert (Hsplit : 2 ^ lb = 2 ^ la * 2 ^ (lb - la)).
  { rewrite <- Z.pow_add_r by lia. f_equal. lia. }
  assert (Hp : 0 < 2 ^ (lb - la)) by (apply Z.pow_pos_nonneg; lia).
  replace (Z.max 0 (la - lb)) with 0 by lia.
  replace (Z.max 0 (- (la - lb))) with (lb - la) by lia.
  rewrite Z.pow_0_r, Z.mul_1_r.
  destruct (Z.leb_spec b (a * 2 ^ (lb - la))) as [H|H].
  - replace (- (la - lb)) with (lb - la) by lia.
    split; [lia|]. split; [exact H|]. nia.
  - replace (- (la - lb - 1)) with (Z.succ (lb - la)) by lia.
    rewrite Z.pow_succ_r by lia.
    split; [lia|]. split; nia.
Qed.

Ltac eval_pow2 :=
  repeat match goal with
         | |- context [(2 ^ ?c)%Z] =>
             let v := eval vm_compute in (2 ^ c)%Z in
             progress change (2 ^ c)%Z with v in *
         | H : context [(2 ^ ?c)%Z] |- _ =>
             let v := eval vm_compute in (2 ^ c)%Z in
             progress change (2 ^ c)%Z with v in *
         end.

Lemma quarter_test (a t : Z) :
  0 <= a <= t -> 0 < t ->
  match Float.true_divide a t with
  | Ok q => negb (Qle_bool RAM_BUFFER_PERCENTAGE q) = (2 ^ 56 * a <? (2 ^ 54 - 1) * t)%Z
  | Raise _ => False
  end.
Proof.
  intros [Ha Hat] Ht. unfold Float.true_divide.
  destruct (Z.eqb_spec t 0) as [->|_]; [lia|].
  destruct (Z.eqb_spec a 0) as [->|Hnz].
  { change (negb (Qle_bool RAM_BUFFER_PERCENTAGE 0)) with true.
    destruct (Z.ltb_spec (2 ^ 56 * 0) ((2 ^ 54 - 1) * t)); [reflexivity|lia]. }
  assert (Hpos : 0 < a) by lia.
  rewrite (Z.abs_eq a), (Z.abs_eq t) by lia.
  rewrite (Z.sgn_pos a), (Z.sgn_pos t) by lia.
  destruct (exponent_of_fraction a t ltac:(lia)) as (HE & HL & HU).
  set (E := Float.exponent a t) in *.
  set (e := Z.max (E - 52) (-1074)).
  assert (He : e <= -52) by lia.
  unfold Float.scale.
  replace (Z.max 0 e) with 0 by lia.
  replace (Z.max 0 (- e)) with (- e) by lia.
  rewrite Z.pow_0_r, !Z.mul_1_r, !Z.mul_1_l.
  set (m := Float.round_half_even (a * 2 ^ (- e)) t).
  (* the size of the significand *)
  assert (Hpe : 2 ^ (- e) <= 2 ^ 52 * 2 ^ (- E)).
  { rewrite <- Z.pow_add_r by lia. apply Z.pow_le_mono_r; lia. }
  assert (HP : 0 < 2 ^ (- E)) by (apply Z.pow_pos_nonneg; lia).
  assert (Hm : m <= 2 ^ 53).
  { pose proof (round_half_even_le (a * 2 ^ (- e)) t Ht) as H. fold m in H.
    assert (a * 2 ^ (- e) <= 2 ^ 52 * (a * 2 ^ (- E))) by nia.
    change (2 ^ 53) with 9007199254740992. change (2 ^ 52) with 4503599627370496 in *.
    nia. }
  assert (Hbig : 2 ^ 53 < 2 ^ 1024) by (apply Z.pow_lt_mono_r; lia).
  destruct (Z.leb_spec (2 ^ 1024) m) as [Hov|_]; [lia|]. clear Hbig.
  unfold Qle_bool, RAM_BUFFER_PERCENTAGE. cbn [Qnum Qden Qminus Qplus Qopp].
  assert (Hden : 0 < 2 ^ (- e)) by (apply Z.pow_pos_nonneg; lia).
  rewrite Z2Pos.id by exact Hden.
  change ((1 * 100 + - (75) * 1))%Z with 25%Z.
  change (Z.pos (1 * 100)) with 100%Z.
  (* the test is [m < 2 ^ (- e - 2)] *)
  set (K := 2 ^ (- e - 2)).
  assert (HK4 : 2 ^ (- e) = 4 * K).
  { unfold K. replace (- e) with (2 + (- e - 2)) at 1 by lia.
    rewrite Z.pow_add_r by lia. reflexivity. }
  assert (HKev : Z.even K = true).
  { unfold K. replace (- e - 2) with (Z.succ (- e - 3)) by lia.
    rewrite Z.pow_succ_r by lia. rewrite Z.even_mul. reflexivity. }
  assert (HK1 : 1 <= K) by (unfold K; pose proof (Z.pow_pos_nonneg 2 (- e - 2)); lia).
  pose proof (round_half_even_lt (a * 2 ^ (- e)) t K Ht HKev) as Hlt. fold m in Hlt.
  rewrite HK4 in *.
  assert (Htest : negb (25 * (4 * K) <=? m * 100)%Z = (m <? K)%Z).
  { destruct (Z.leb_spec (25 * (4 * K)) (m * 100)), (Z.ltb_spec m K); simpl; lia. }
  rewrite Htest, Hlt. clear Htest Hlt Hm m.
  (* by the exponent *)
  destruct (Z_le_gt_dec E (-4)) as [Hsmall|Hnear].
  - assert (HP16 : 16 <= 2 ^ (- E)).
    { change 16 with (2 ^ 4). apply Z.pow_le_mono_r; lia. }
    assert (H8 : 8 * a < t) by nia.
    destruct (Z.ltb_spec (2 * (a * (4 * K))) ((2 * K - 1) * t)),
             (Z.ltb_spec (2 ^ 56 * a) ((2 ^ 54 - 1) * t)); try reflexivity; exfalso;
      change (2 ^ 56) with 72057594037927936 in *;
      change (2 ^ 54) with 18014398509481984 in *; nia.
  - assert (Hcases : E = 0 \/ E = -1 \/ E = -2 \/ E = -3) by lia.
    assert (He' : e = E - 52) by lia.
    unfold K in *. rewrite He' in *. clear He' Hden He Hpe.
    clear HK1 HKev HK4 HP.
    destruct Hcases as [->|[->|[->| ->]]]; eval_pow2;
      match goal with
      | |- (?x <? ?y)%Z = (?u <? ?v)%Z =>
          destruct (Z.ltb_spec x y), (Z.ltb_spec u v)
      end; try reflexivity; exfalso; lia.
Qed.

(** The headroom test of [offload_model_to_cpu], for byte counts with
    [0 <= available <= total] and [0 < total]: it reads the two counts
    and changes nothing, and the buffer counts as full exactly when the
    float quotient is below 0.25, that is when the exact quotient is
    below [1/4 - 2^-56].  For a total below [2^54] bytes this is exactly
    when less than a quarter of the total is available, so a reading of
    exactly 25% is enough headroom. *)
Theorem ram_buffer_threshold (ext : Externals) (w : World) (available total : Z) :
  virtual_memory ext w = (available, total) ->
  (0 <= available <= total)%Z ->
  (0 < total)%Z ->
  is_ram_buffer_full ext w
    = (Ok (2 ^ 56 * available <? (2 ^ 54 - 1) * total)%Z, w)
  /\ ((total < 2 ^ 54)%Z ->
      is_ram_buffer_full ext w = (Ok (4 * available <? total)%Z, w)).
Proof.
  intros Hmem Hav Hpos.
  assert (Hfull : is_ram_buffer_full ext w
                  = (Ok (2 ^ 56 * available <? (2 ^ 54 - 1) * total)%Z, w)).
  { unfold is_ram_buffer_full. rewrite Hmem.
    pose proof (quarter_test available total Hav Hpos) as H.
    destruct (Float.true_divide available total) as [q|e]; [|contradiction].
    rewrite H. reflexivity. }
  split; [exact Hfull|].
  intros Hsmall. rewrite Hfull. f_equal. f_equal.
  change (2 ^ 56)%Z with 72057594037927936%Z.
  change (2 ^ 54)%Z with 18014398509481984%Z in *.
  destruct (Z.ltb_spec (72057594037927936 * available)
              ((18014398509481984 - 1) * total)),
           (Z.ltb_spec (4 * available) total); try reflexivity; lia.
Qed.

(** Readings of 25% and of 24% of 100 bytes, and a reading one byte
    short of a quarter of [2^60] bytes, which the float quotient does not
    tell from a quarter. *)
Lemma ram_buffer_threshold_witness :
  is_ram_buffer_full (with_virtual_memory (fun _ => (25, 100)%Z) quiet) host_two
    = (Ok false, host_two)
  /\ is_ram_buffer_full (with_virtual_memory (fun _ => (24, 100)%Z) quiet) host_two
    = (Ok true, host_two)
  /\ is_ram_buffer_full
       (with_virtual_memory (fun _ => (2 ^ 58 - 1, 2 ^ 60)%Z) quiet) host_two
    = (Ok false, host_two).
Proof.
  split; [|split].
  - apply (proj2 (ram_buffer_threshold
                    (with_virtual_memory (fun _ => (25, 100)%Z) quiet)
                    host_two 25 100 eq_refl ltac:(lia) eq_refl)).
    reflexivity.
  - apply (proj2 (ram_buffer_threshold
                    (with_virtual_memory (fun _ => (24, 100)%Z) quiet)
                    host_two 24 100 eq_refl ltac:(lia) eq_refl)).
    reflexivity.
  - exact (proj1 (ram_buffer_threshold
                    (with_virtual_memory (fun _ => (2 ^ 58 - 1, 2 ^ 60)%Z) quiet)
                    host_two (2 ^ 58 - 1) (2 ^ 60) eq_refl ltac:(lia) eq_refl)).
Defined.

(** With no evictable entry [execute_on_cuda] is the work itself: its
    result or its error comes back, out-of-memory or not, in the state
    the work left, and no reclamation pass is made. *)
Theorem no_candidates_runs_work_once {R} (ext : Externals) (function : M R)
    (ignored_models : list nat) (w : World) :
  get_loaded_models_by_device cuda ignored_models w = [] ->
  execute_on_cuda ext function ignored_models w = function w.
Proof.
  intros Hnone. unfold execute_on_cuda. rewrite Hnone. simpl.
  destruct (function w) as [[r|error] w1]; [reflexivity|].
  destruct (is_RuntimeError error); [|reflexivity].
  rewrite orb_true_r. reflexivity.
Qed.

Lemma no_candidates_runs_work_once_witness :
  execute_on_cuda exhausted (inference exhausted) [] empty_world
  = inference exhausted empty_world
  /\ fst (inference exhausted empty_world) = Raise oom.
Proof.
  split; [|reflexivity].
  apply (no_candidates_runs_work_once exhausted (inference exhausted) [] empty_world).
  reflexivity.
Defined.

Lemma retry_loop_result {R} ext (function : M R) pop_order :
  forall first_try w r w',
    retry_loop ext function first_try pop_order w = (Ok r, w') ->
    exists v, function v = (Ok r, w').
Proof.
  induction pop_order as [|target rest IH]; intros first_try w r w'; simpl.
  - rewrite orb_false_r. destruct first_try.
    + destruct (function w) as [[r0|error] w1] eqn:Hf.
      * intros H. injection H as <- <-. eauto.
      * destruct (is_RuntimeError error); [rewrite orb_true_r|]; discriminate.
    + unfold bind, empty_cache, modify, raise. discriminate.
  - rewrite orb_true_r.
    destruct (function w) as [[r0|error] w1] eqn:Hf.
    + intros H. injection H as <- <-. eauto.
    + destruct (is_RuntimeError error); [|discriminate].
      rewrite orb_false_r. destruct (is_cuda_oom error); [|discriminate].
      simpl. unfold bind at 1.
      destruct (offload_model_to_cpu ext target w1) as [[u|e] w2]; [|discriminate].
      unfold bind at 1, empty_cache, modify. apply IH.
Qed.

(** A result of [execute_on_cuda] is always the result of an attempt of
    the work, handed back in the state that attempt left: nothing is
    demoted or reclaimed after the attempt that succeeds. *)
Theorem execute_on_cuda_result {R} (ext : Externals) (function : M R)
    (ignored_models : list nat) (w w' : World) (r : R) :
  execute_on_cuda ext function ignored_models w = (Ok r, w') ->
  exists v, function v = (Ok r, w').
Proof. unfold execute_on_cuda. apply retry_loop_result. Qed.

Lemma execute_on_cuda_leaves_result {R} ext (function : M R) ignored_models w w' r :
  execute_on_cuda ext function ignored_models w = (Ok r, w') ->
  exists v, function v = (Ok r, w').
Proof. unfold execute_on_cuda. apply retry_loop_result. Qed.

Lemma execute_on_cuda_result_witness :
  exists v,
    inference crowded v
    = (Ok tt, snd (execute_on_cuda crowded (inference crowded) [0%nat] two_resident)).
Proof.
  apply (execute_on_cuda_result crowded (inference crowded) [0%nat] two_resident).
  apply injective_projections; [vm_compute; reflexivity|reflexivity].
Defined.

Lemma dict_get_set_ne k k' m d :
  k <> k' -> dict_get k (dict_set k' m d) = dict_get k d.
Proof.
  intros Hne. induction d as [|[k0 m0] d IH]; simpl.
  - apply key_eqb_neq in Hne. rewrite Hne. reflexivity.
  - destruct (key_eqb k' k0) eqn:E'; simpl.
    + apply key_eqb_eq in E'. subst k0.
      apply key_eqb_neq in Hne. rewrite Hne. reflexivity.
    + rewrite IH. reflexivity.
Qed.

Lemma dict_get_remove_Some k k' d m :
  dict_get k (dict_remove k' d) = Some m -> dict_get k d = Some m.
Proof.
  destruct (key_eqb k k') eqn:E.
  - apply key_eqb_eq in E. subst. rewrite dict_get_remove. discriminate.
  - apply key_eqb_neq in E. rewrite dict_get_remove_ne by exact E. auto.
Qed.

Lemma is_ram_buffer_full_state ext w r w' :
  is_ram_buffer_full ext w = (r, w') -> w' = w.
Proof.
  intros H. pose proof (is_ram_buffer_full_reads ext w) as Hw.
  rewrite H in Hw. exact Hw.
Qed.

(** What the discarding loop does to the state: it only deletes keys,
    and only the target or keys of its list. *)
Lemma offload_loop_effect ext model_id pop_order :
  forall w r w',
    offload_loop ext model_id pop_order w = (r, w') ->
    heap w' = heap w
    /\ reclaims w' = reclaims w
    /\ (forall k m, dict_get k (models w') = Some m -> dict_get k (models w) = Some m)
    /\ (forall k, k <> model_id -> ~ In k pop_order ->
          dict_get k (models w') = dict_get k (models w))
    /\ (r = Ok true -> dict_get model_id (models w') = None).
Proof.
  induction pop_order as [|victim rest IH]; intros w r w'; simpl; unfold bind at 1;
    destruct (is_ram_buffer_full ext w) as [[full|e] w0] eqn:Hfull;
    apply is_ram_buffer_full_state in Hfull; subst w0.
  - destruct full.
    + unfold bind, del_model. destruct (dict_mem model_id (models w)).
      * unfold ret. intros H. injection H as <- <-. simpl.
        repeat split; auto.
        -- intros k m. apply dict_get_remove_Some.
        -- intros k Hk _. apply dict_get_remove_ne. exact Hk.
        -- intros _. apply dict_get_remove.
      * intros H. injection H as <- <-. repeat split; auto. discriminate.
    + unfold ret. intros H. injection H as <- <-. repeat split; auto. discriminate.
  - intros H. injection H as <- <-. repeat split; auto. discriminate.
  - destruct full.
    + unfold bind at 1, del_model. destruct (dict_mem victim (models w)).
      * intros H. apply IH in H as (Hh & Hr & Hsub & Hframe & Hret). simpl in *.
        repeat split; auto.
        -- intros k m Hk. apply Hsub in Hk. apply dict_get_remove_Some in Hk. exact Hk.
        -- intros k Hk Hnot. rewrite Hframe; [|exact Hk|tauto].
           apply dict_get_remove_ne. intros ->. tauto.
      * intros H. injection H as <- <-. repeat split; auto. discriminate.
    + unfold ret. intros H. injection H as <- <-. repeat split; auto. discriminate.
  - intros H. injection H as <- <-. repeat split; auto. discriminate.
Qed.

Lemma pipe_to_effect ext p d w r w' :
  pipe_to ext p d w = (r, w') ->
  models w' = models w
  /\ reclaims w' = reclaims w
  /\ (forall q, q <> p -> heap w' q = heap w q)
  /\ (forall x, r = Ok x -> x = p /\ device (heap w' p) = d).
Proof.
  unfold pipe_to, bind, pipe_call, modify, ret.
  assert (Hother : forall (f : Pipe -> Pipe) v q, q <> p ->
             heap (update_pipe p f v) q = heap v q).
  { intros f v q Hq. simpl. apply Nat.eqb_neq in Hq. rewrite Hq. reflexivity. }
  destruct (pipe_raises ext p (call_to d) w); intros H; injection H as <- <-.
  - split; [reflexivity|]. split; [reflexivity|]. split; [|discriminate].
    intros q Hq. apply Hother. exact Hq.
  - split; [reflexivity|]. split; [reflexivity|]. split.
    + intros q Hq. rewrite !Hother by exact Hq. reflexivity.
    + intros x Hx. injection Hx as <-. split; [reflexivity|].
      simpl. rewrite Nat.eqb_refl. reflexivity.
Qed.

(** What a call of [offload_model_to_cpu] does to the state. *)
Lemma offload_effect ext model_id w r w' :
  offload_model_to_cpu ext model_id w = (r, w') ->
  reclaims w' = reclaims w
  /\ (forall q, (forall m, dict_get model_id (models w) = Some m -> pipeline m <> q) ->
        heap w' q = heap w q)
  /\ (forall k m, dict_get k (models w') = Some m -> dict_get k (models w) = Some m)
  /\ (forall k, k <> model_id ->
        ~ In k (get_loaded_models_by_device cpu [] w) ->
        dict_get k (models w') = dict_get k (models w))
  /\ (r = Ok tt ->
        dict_get model_id (models w') = None
        \/ exists m, dict_get model_id (models w') = Some m
                     /\ device (heap w' (pipeline m)) = cpu).
Proof.
  unfold offload_model_to_cpu. unfold bind at 1, get. unfold bind at 1.
  destruct (offload_loop ext model_id (rev (get_loaded_models_by_device cpu [] w)) w)
    as [[returned|e] w1] eqn:Hloop;
    apply offload_loop_effect in Hloop as (Hh & Hr & Hsub & Hframe & Hret).
  2:{ intros H. injection H as <- <-. repeat split; auto; try discriminate.
      - intros q _. rewrite Hh. reflexivity.
      - intros k Hk Hnot. apply Hframe; [exact Hk|]. rewrite <- in_rev. exact Hnot. }
  destruct returned.
  - unfold ret. intros H. injection H as <- <-. repeat split; auto.
    + intros q _. rewrite Hh. reflexivity.
    + intros k Hk Hnot. apply Hframe; [exact Hk|]. rewrite <- in_rev. exact Hnot.
  - unfold bind at 1, get.
    destruct (dict_get model_id (models w1)) as [model|] eqn:Hget.
    2:{ unfold raise. intros H. injection H as <- <-.
        repeat split; auto; try discriminate.
        - intros q _. rewrite Hh. reflexivity.
        - intros k Hk Hnot. apply Hframe; [exact Hk|]. rewrite <- in_rev. exact Hnot. }
    unfold bind at 1.
    destruct (pipe_to ext (pipeline model) cpu w1) as [[p|e] w2] eqn:Hto;
      apply pipe_to_effect in Hto as (Hm2 & Hr2 & Hh2 & Hp2).
    + destruct (Hp2 p eq_refl) as [-> Hdev].
      unfold modify. intros H. injection H as <- <-. simpl.
      split; [congruence|]. split; [|split; [|split]].
      * intros q Hq. rewrite Hh2, Hh; [reflexivity|].
        apply not_eq_sym. apply Hq. apply Hsub. exact Hget.
      * intros k m. rewrite Hm2. destruct (key_eqb k model_id) eqn:E.
        -- apply key_eqb_eq in E. subst k. rewrite dict_get_set.
           intros H. injection H as <-. apply Hsub. rewrite Hget.
           destruct model; reflexivity.
        -- apply key_eqb_neq in E. rewrite dict_get_set_ne by exact E. apply Hsub.
      * intros k Hk Hnot. rewrite Hm2, dict_get_set_ne by exact Hk.
        apply Hframe; [exact Hk|]. rewrite <- in_rev. exact Hnot.
      * intros _. right. eexists. rewrite Hm2, dict_get_set. split; [reflexivity|].
        exact Hdev.
    + intros H. injection H as <- <-. split; [congruence|]. split; [|split; [|split]].
      * intros q Hq. rewrite Hh2, Hh; [reflexivity|].
        apply not_eq_sym. apply Hq. apply Hsub. exact Hget.
      * intros k m. rewrite Hm2. apply Hsub.
      * intros k Hk Hnot. rewrite Hm2. apply Hframe; [exact Hk|].
        rewrite <- in_rev. exact Hnot.
      * discriminate.
Qed.

(** After [offload_model_to_cpu] returns, the target no longer occupies
    the accelerator: it is gone from the cache, or it is cached with its
    pipeline on the host. *)
Theorem offload_leaves_target_off_accelerator (ext : Externals)
    (model_id : ModelKey) (w w' : World) :
  offload_model_to_cpu ext model_id w = (Ok tt, w') ->
  dict_get model_id (models w') = None
  \/ exists m, dict_get model_id (models w') = Some m
               /\ device (heap w' (pipeline m)) = cpu.
Proof.
  intros H. apply offload_effect in H as (_ & _ & _ & _ & Hpost). auto.
Qed.

Lemma offload_leaves_target_off_accelerator_witness :
  let w' := snd (offload_model_to_cpu host_pressure ("target", "sd") host_two) in
  dict_get ("target", "sd") (models w') = None
  \/ exists m, dict_get ("target", "sd") (models w') = Some m
               /\ device (heap w' (pipeline m)) = cpu.
Proof.
  apply (offload_leaves_target_off_accelerator host_pressure ("target", "sd") host_two).
  apply injective_projections; [vm_compute; reflexivity|reflexivity].
Defined.

(** Whatever happens in [offload_model_to_cpu], the only entries it
    removes are the target and entries of the host tier: an entry under
    another key that is not host-resident is found afterwards as before.
    And it never adds or changes an entry under another key. *)
Theorem offload_spares_accelerator_entries (ext : Externals)
    (model_id k : ModelKey) (w : World) :
  k <> model_id ->
  ~ In k (get_loaded_models_by_device cpu [] w) ->
  dict_get k (models (snd (offload_model_to_cpu ext model_id w)))
  = dict_get k (models w).
Proof.
  intros Hk Hnot.
  destruct (offload_model_to_cpu ext model_id w) as [r w'] eqn:H.
  apply offload_effect in H as (_ & _ & _ & Hframe & _). simpl. auto.
Qed.

Lemma offload_spares_accelerator_entries_witness :
  dict_get ("older", "sd")
    (models (snd (offload_model_to_cpu (with_virtual_memory (fun _ => (10, 100)%Z) quiet)
                    ("newer", "sd") two_resident)))
  = dict_get ("older", "sd") (models two_resident).
Proof.
  apply (offload_spares_accelerator_entries
           (with_virtual_memory (fun _ => (10, 100)%Z) quiet)
           ("newer", "sd") ("older", "sd") two_resident).
  - discriminate.
  - vm_compute. tauto.
Defined.

Lemma dict_get_In_NoDup k m d :
  List.NoDup (map fst d) -> In (k, m) d -> dict_get k d = Some m.
Proof.
  induction d as [|[k0 m0] d IH]; simpl; [tauto|].
  intros Hnd [Heq|Hin].
  - injection Heq as -> ->. rewrite key_eqb_refl. reflexivity.
  - apply NoDup_cons_iff in Hnd as [Hnot Hnd].
    destruct (key_eqb k k0) eqn:E.
    + apply key_eqb_eq in E. subst k0. exfalso. apply Hnot.
      apply in_map_iff. exists (k, m). split; [reflexivity|exact Hin].
    + apply IH; assumption.
Qed.

Lemma retry_loop_keeps_pipeline {R} ext (function : M R) (q : nat) :
  (forall v, models (snd (function v)) = models v
             /\ device (heap (snd (function v)) q) = device (heap v q)) ->
  forall pop_order first_try w,
    (forall k m, In k pop_order -> dict_get k (models w) = Some m -> pipeline m <> q) ->
    device (heap (snd (retry_loop ext function first_try pop_order w)) q)
    = device (heap w q).
Proof.
  intros Hf. induction pop_order as [|target rest IH]; intros first_try w Hinv; simpl.
  - rewrite orb_false_r. destruct first_try.
    + destruct (Hf w) as [_ Hd]. destruct (function w) as [[r|error] w1]; [exact Hd|].
      destruct (is_RuntimeError error); [rewrite orb_true_r|]; exact Hd.
    + reflexivity.
  - rewrite orb_true_r. destruct (Hf w) as [Hm Hd].
    destruct (function w) as [[r|error] w1]; [exact Hd|]. simpl in Hm, Hd.
    destruct (is_RuntimeError error); [|exact Hd].
    rewrite orb_false_r. destruct (is_cuda_oom error); [|exact Hd]. simpl.
    unfold bind at 1.
    destruct (offload_model_to_cpu ext target w1) as [[u|e] w2] eqn:Hoff;
      apply offload_effect in Hoff as (_ & Hheap & Hsub & _ & _).
    + unfold bind at 1, empty_cache, modify.
      rewrite IH.
      * simpl. rewrite Hheap; [exact Hd|].
        intros m Hget. apply (Hinv target m); [left; reflexivity|].
        rewrite <- Hm. exact Hget.
      * simpl. intros k m Hk Hget. apply (Hinv k m); [right; exact Hk|].
        rewrite <- Hm. apply Hsub. exact Hget.
    + simpl. rewrite Hheap; [exact Hd|].
      intros m Hget. apply (Hinv target m); [left; reflexivity|].
      rewrite <- Hm. exact Hget.
Qed.

(** The lease is never evicted: [execute_on_cuda] does not move a
    pipeline listed in [ignored_models], provided the work itself leaves
    the dictionary and the device of that pipeline alone. *)
Theorem ignored_pipeline_is_never_moved {R} (ext : Externals) (function : M R)
    (ignored_models : list nat) (q : nat) (w : World) :
  List.NoDup (map fst (models w)) ->
  In q ignored_models ->
  (forall v, models (snd (function v)) = models v
             /\ device (heap (snd (function v)) q) = device (heap v q)) ->
  device (heap (snd (execute_on_cuda ext function ignored_models w)) q)
  = device (heap w q).
Proof.
  intros Hnd Hq Hf. unfold execute_on_cuda.
  apply retry_loop_keeps_pipeline; [exact Hf|].
  intros k m Hk Hget Heq. apply in_rev in Hk.
  apply loaded_models_In in Hk as (m0 & Hin & _ & Hni).
  rewrite (dict_get_In_NoDup _ _ _ Hnd Hin) in Hget. injection Hget as <-.
  apply Hni. rewrite Heq. exact Hq.
Qed.

Lemma pipe_call_frame ext p c v :
  models (snd (pipe_call ext p c v)) = models v
  /\ reclaims (snd (pipe_call ext p c v)) = reclaims v
  /\ device (heap (snd (pipe_call ext p c v)) p) = device (heap v p).
Proof.
  unfold pipe_call. destruct (pipe_raises ext p c v); simpl;
    rewrite Nat.eqb_refl; auto.
Qed.

Lemma ignored_pipeline_is_never_moved_witness :
  device (heap (snd (execute_on_cuda exhausted (inference exhausted) [0%nat]
                       two_resident)) 0) = cuda.
Proof.
  apply (ignored_pipeline_is_never_moved exhausted (inference exhausted) [0%nat] 0%nat
           two_resident).
  - repeat (constructor; [simpl; intuition discriminate|]). constructor.
  - left. reflexivity.
  - intros v. destruct (pipe_call_frame exhausted 0 (call_pipe []) v) as (Hm & _ & Hd).
    split; [exact Hm|exact Hd].
Defined.

Lemma retry_loop_reclaims {R} ext (function : M R) :
  (forall v, reclaims (snd (function v)) = reclaims v) ->
  forall pop_order first_try w,
    (reclaims (snd (retry_loop ext function first_try pop_order w))
     <= reclaims w + S (length pop_order))%nat.
Proof.
  intros Hf. induction pop_order as [|target rest IH]; intros first_try w; simpl.
  - rewrite orb_false_r. destruct first_try.
    + specialize (Hf w). destruct (function w) as [[r|error] w1]; simpl in Hf |- *; [lia|].
      destruct (is_RuntimeError error); [rewrite orb_true_r|]; simpl; lia.
    + simpl. lia.
  - rewrite orb_true_r. specialize (Hf w).
    destruct (function w) as [[r|error] w1]; simpl in Hf |- *; [lia|].
    destruct (is_RuntimeError error); [|simpl; lia].
    rewrite orb_false_r. destruct (is_cuda_oom error); [|simpl; lia]. simpl.
    unfold bind at 1.
    destruct (offload_model_to_cpu ext target w1) as [[u|e] w2] eqn:Hoff;
      apply offload_effect in Hoff as (Hr & _).
    + unfold bind at 1, empty_cache, modify.
      etransitivity; [apply IH|]. simpl. lia.
    + simpl. lia.
Qed.

(** The retry loop is bounded by the number of evictable entries: when
    the work itself makes no reclamation pass, [execute_on_cuda] makes at
    most one per evictable entry, after its demotion, and one more when
    it gives up. *)
Theorem reclamation_passes_bounded {R} (ext : Externals) (function : M R)
    (ignored_models : list nat) (w : World) :
  (forall v, reclaims (snd (function v)) = reclaims v) ->
  (reclaims (snd (execute_on_cuda ext function ignored_models w))
   <= reclaims w + S (length (get_loaded_models_by_device cuda ignored_models w)))%nat.
Proof.
  intros Hf. unfold execute_on_cuda.
  etransitivity; [apply retry_loop_reclaims; exact Hf|].
  rewrite length_rev. lia.
Qed.

Lemma reclamation_passes_bounded_witness :
  (reclaims (snd (execute_on_cuda exhausted (inference exhausted) [0%nat] two_resident))
   <= 0 + 3)%nat.
Proof.
  apply (reclamation_passes_bounded exhausted (inference exhausted) [0%nat] two_resident).
  intros v. exact (proj1 (proj2 (pipe_call_frame exhausted 0 (call_pipe []) v))).
Defined.

(* ===================================================================== *)
(** ** Further properties of the weight resolver *)
(* ===================================================================== *)

Lemma removed_subseteq (t : string) (X : gset string) : ({[t]} ∪ X) ∖ {[t]} ⊆ X.
Proof.
  intros x Hx. apply elem_of_difference in Hx as [Hx Hne].
  apply elem_of_union in Hx as [Hx|Hx]; [contradiction|exact Hx].
Qed.

Lemma fetch_failure_files ext url download_path w exc :
  fst (fetch ext url download_path w) = Raise exc ->
  files (snd (fetch ext url download_path w)) ⊆ files w
  \/ exists dst_written,
       shutil_move ext (mkstemp ext w) download_path (in_flight ext w)
         = move_raises exc dst_written
       /\ files (snd (fetch ext url download_path w))
          = if dst_written
            then {[download_path]} ∪ ({[mkstemp ext w]} ∪ files w)
            else {[mkstemp ext w]} ∪ files w.
Proof.
  unfold fetch.
  destruct (urlopen ext url w) as [e|total_size received].
  - destruct (exn_class e); intros _; left; simpl; apply removed_subseteq.
  - destruct (_ && _); [intros _; left; simpl; apply removed_subseteq|].
    destruct (shutil_move ext _ _ _) as [|e dst_written] eqn:Hmove; [discriminate|].
    simpl. intros H. injection H as ->. right. exists dst_written.
    split; [reflexivity|]. destruct dst_written; reflexivity.
Qed.

(** [download_to], case by case. *)
Lemma download_to_cases ext url directory extension w :
  download_to ext url directory extension w
  = if is_Some_b extension && Str.endswith url ".ckpt" then (Raise not_safetensor, w)
    else
      match cache_file_name ext url extension with
      | Raise e => (Raise e, w)
      | Ok name =>
          let download_path := Pathlib.join directory name in
          if bool_decide (download_path ∈ files w) then (Ok download_path, w)
          else
            match fetch ext url download_path w with
            | (Ok _, w1) => (Ok download_path, w1)
            | (Raise e, w1) => (Raise e, w1)
            end
      end.
Proof.
  unfold download_to, cache_file_name.
  destruct (is_Some_b extension && Str.endswith url ".ckpt"); [reflexivity|].
  unfold bind at 1.
  destruct extension as [e|]; [destruct (Str.is_empty e)|]; unfold ret at 1, lift;
    try (destruct (Pathlib.with_suffix _ _) as [name|err]; [|reflexivity]);
    unfold bind, path_exists;
    (destruct (bool_decide _); [reflexivity|]);
    (destruct (fetch _ _ _ _) as [[u|err] w1]; reflexivity).
Qed.

(** A resolution that fails leaves no new file behind, neither a
    partial download under the cache path nor the temporary file, unless
    the error is the one of the final [shutil.move]: then the temporary
    file is still there, and nothing else is new but the destination, if
    the move had started to write it. *)
Theorem failed_download_leaves_no_file (ext : Externals) (url directory : string)
    (extension : option string) (w : World) (exc : exn) :
  fst (download_to ext url directory extension w) = Raise exc ->
  let after := files (snd (download_to ext url directory extension w)) in
  after ⊆ files w
  \/ exists download_path dst_written,
       shutil_move ext (mkstemp ext w) download_path (in_flight ext w)
         = move_raises exc dst_written
       /\ mkstemp ext w ∈ after
       /\ after ⊆ {[download_path]} ∪ ({[mkstemp ext w]} ∪ files w)
       /\ (dst_written = false -> after ⊆ {[mkstemp ext w]} ∪ files w).
Proof.
  cbv zeta. rewrite download_to_cases.
  destruct (is_Some_b extension && Str.endswith url ".ckpt");
    [intros _; left; reflexivity|].
  destruct (cache_file_name ext url extension) as [name|e];
    [|intros _; left; reflexivity].
  cbv zeta. destruct (bool_decide _); [discriminate|].
  pose proof (fetch_failure_files ext url (Pathlib.join directory name) w) as Hfetch.
  destruct (fetch ext url (Pathlib.join directory name) w) as [[u|e] w1];
    [discriminate|].
  simpl in Hfetch |- *. intros H. injection H as ->.
  destruct (Hfetch exc eq_refl) as [Hsub|(dst_written & Hmove & Hfiles)];
    [left; exact Hsub|].
  right. exists (Pathlib.join directory name), dst_written.
  split; [exact Hmove|]. rewrite Hfiles.
  assert (Htmp : mkstemp ext w ∈ ({[mkstemp ext w]} ∪ files w : gset string)).
  { apply elem_of_union_l, elem_of_singleton. reflexivity. }
  destruct dst_written.
  - split; [apply elem_of_union_r; exact Htmp|]. split; [reflexivity|discriminate].
  - split; [exact Htmp|]. split; [apply union_subseteq_r|]. intros _. reflexivity.
Qed.

(** A download that comes short leaves the disk as it was; a move that
    fails on a full disk leaves the temporary file, and here the partly
    written cache file as well. *)
Lemma failed_download_leaves_no_file_witness :
  let url := "https://host/style.safetensors" in
  files (snd (download_to short url LORA_WEIGHTS_DIR (Some "safetensors") empty_world))
    ⊆ files empty_world
  /\ fst (download_to full_disk url LORA_WEIGHTS_DIR (Some "safetensors") empty_world)
     = Raise no_space
  /\ "/tmp/tmpfile"
       ∈ files (snd (download_to full_disk url LORA_WEIGHTS_DIR (Some "safetensors")
                       empty_world)).
Proof.
  intros url. split; [|split; [vm_compute; reflexivity|]].
  - destruct (failed_download_leaves_no_file short url LORA_WEIGHTS_DIR
                (Some "safetensors") empty_world
                (mk_exn ValueError
                   "Downloaded file /tmp/tmpfile is not the same size as the remote file."))
      as [Hsub|(download_path & dst_written & Hmove & _)];
      [vm_compute; reflexivity|exact Hsub|discriminate Hmove].
  - destruct (failed_download_leaves_no_file full_disk url LORA_WEIGHTS_DIR
                (Some "safetensors") empty_world no_space)
      as [Hsub|(download_path & dst_written & _ & Hin & _)];
      [vm_compute; reflexivity| |exact Hin].
    exfalso. apply (not_elem_of_empty (C := gset string) "/tmp/tmpfile").
    apply Hsub. refine (bool_decide_unpack _ _). vm_compute. exact I.
Defined.

Lemma chars_append (a b : string) : Str.chars (a +:+ b) = Str.chars a ++ Str.chars b.
Proof.
  unfold Str.chars. induction a as [|c a IH]; simpl; [reflexivity|].
  rewrite IH. reflexivity.
Qed.

Lemma prefix_chars_app (p s : list ascii) : Str.prefix_chars p (p ++ s) = true.
Proof.
  induction p as [|c p IH]; simpl; [reflexivity|].
  rewrite Ascii.eqb_refl. exact IH.
Qed.

Lemma prefix_chars_weaken (p s rest : list ascii) :
  Str.prefix_chars p s = true -> Str.prefix_chars p (s ++ rest) = true.
Proof.
  revert s. induction p as [|c p IH]; intros [|d s]; simpl; try reflexivity.
  - discriminate.
  - intros H. apply andb_true_iff in H as [Hc H]. rewrite Hc. simpl. apply IH. exact H.
Qed.

Lemma endswith_append (a b : string) : Str.endswith (a +:+ b) b = true.
Proof.
  unfold Str.endswith. rewrite chars_append, rev_app_distr. apply prefix_chars_app.
Qed.

Lemma cache_file_name_extension ext url e name :
  Str.is_empty e = false ->
  cache_file_name ext url (Some e) = Ok name ->
  Str.endswith name ("." +:+ e) = true.
Proof.
  intros He. unfold cache_file_name. rewrite He. clear He. cbv beta iota zeta.
  unfold Pathlib.with_suffix.
  destruct (Str.contains "/" _); [discriminate|].
  destruct (Str.is_empty _); [discriminate|].
  intros H. injection H as <-. apply endswith_append.
Qed.

Lemma startswith_append (a b : string) : Str.startswith (a +:+ b) a = true.
Proof. unfold Str.startswith. rewrite chars_append. apply prefix_chars_app. Qed.

Lemma endswith_weaken (a b sfx : string) :
  Str.endswith b sfx = true -> Str.endswith (a +:+ b) sfx = true.
Proof.
  unfold Str.endswith. rewrite chars_append, rev_app_distr. apply prefix_chars_weaken.
Qed.

Lemma is_empty_false (s : string) : s <> "" -> Str.is_empty s = false.
Proof. destruct s; [congruence|reflexivity]. Qed.

(** The text of [directory / nm], by the kind of directory. *)
Lemma join_cases (directory nm : string) :
  directory <> "" -> directory <> "." ->
  Pathlib.join directory nm
  = if Str.endswith directory "/" then directory +:+ nm else directory +:+ "/" +:+ nm.
Proof.
  intros Hne Hdot. unfold Pathlib.join.
  rewrite (is_empty_false directory Hne).
  destruct (String.eqb_spec directory "."); [contradiction|reflexivity].
Qed.

Lemma join_endswith (directory nm sfx : string) :
  Str.endswith nm sfx = true -> Str.endswith (Pathlib.join directory nm) sfx = true.
Proof.
  intros H. unfold Pathlib.join.
  destruct (_ || _); [exact H|].
  destruct (Str.endswith directory "/"); repeat apply endswith_weaken; exact H.
Qed.

(** A resolution that succeeds returns a path that exists on disk
    afterwards and is [directory / name] for the name of the cache file.
    Unless the directory is the empty path, the path starts with the
    directory, and with the directory and a separator when the directory
    does not end with one, as the root does.  When an extension was asked
    for, the path ends with that extension. *)
Theorem resolved_path_is_published (ext : Externals) (url directory : string)
    (extension : option string) (w : World) (local_path : string) :
  fst (download_to ext url directory extension w) = Ok local_path ->
  local_path ∈ files (snd (download_to ext url directory extension w))
  /\ (exists name, cache_file_name ext url extension = Ok name
                   /\ local_path = Pathlib.join directory name)
  /\ (directory <> "" -> directory <> "." ->
      Str.startswith local_path directory = true
      /\ (Str.endswith directory "/" = false ->
          Str.startswith local_path (directory +:+ "/") = true))
  /\ (forall e, extension = Some e -> Str.is_empty e = false ->
        Str.endswith local_path ("." +:+ e) = true).
Proof.
  rewrite download_to_cases.
  destruct (is_Some_b extension && Str.endswith url ".ckpt"); [discriminate|].
  destruct (cache_file_name ext url extension) as [name|err] eqn:Hname; [|discriminate].
  cbv zeta.
  assert (Hshape :
            (exists name', Ok name = Ok name'
                           /\ Pathlib.join directory name = Pathlib.join directory name')
            /\ (directory <> "" -> directory <> "." ->
                Str.startswith (Pathlib.join directory name) directory = true
                /\ (Str.endswith directory "/" = false ->
                    Str.startswith (Pathlib.join directory name) (directory +:+ "/")
                    = true))
            /\ (forall e, extension = Some e -> Str.is_empty e = false ->
                  Str.endswith (Pathlib.join directory name) ("." +:+ e) = true)).
  { split; [exists name; split; reflexivity|]. split.
    - intros Hne Hdot. rewrite join_cases by assumption.
      destruct (Str.endswith directory "/").
      + split; [apply startswith_append|discriminate].
      + split; [apply startswith_append|]. intros _.
        change (directory +:+ "/" +:+ name) with (directory +:+ ("/" +:+ name)).
        unfold Str.startswith. rewrite !chars_append, app_assoc.
        apply prefix_chars_app.
    - intros e -> He. apply join_endswith.
      exact (cache_file_name_extension ext url e name He Hname). }
  destruct (bool_decide (Pathlib.join directory name ∈ files w)) eqn:Hpresent.
  - simpl. intros H. injection H as <-. split; [|exact Hshape].
    apply bool_decide_eq_true_1 in Hpresent. exact Hpresent.
  - destruct (fetch ext url (Pathlib.join directory name) w) as [[u|e] w1] eqn:Hfetch;
      [|discriminate].
    simpl. intros H. injection H as <-. split; [|exact Hshape].
    destruct u. apply fetch_publishes in Hfetch as [Hin _]. exact Hin.
Qed.

(** An overlay resolved into the directory of the overlays, and the
    same one resolved into the root and into the empty path. *)
Lemma resolved_path_is_published_witness :
  let url := "https://host/models/style.v2.safetensors" in
  let p := "/data/loras/style_v2_safetensors-d41d8cd9.safetensors" in
  let r := download_to quiet url LORA_WEIGHTS_DIR (Some "safetensors") empty_world in
  fst r = Ok p
  /\ p ∈ files (snd r)
  /\ Str.startswith p "/data/loras/" = true
  /\ Str.endswith p ".safetensors" = true
  /\ fst (download_to quiet url "/" (Some "safetensors") empty_world)
     = Ok "/style_v2_safetensors-d41d8cd9.safetensors"
  /\ fst (download_to quiet url "." (Some "safetensors") empty_world)
     = Ok "style_v2_safetensors-d41d8cd9.safetensors".
Proof.
  intros url p r.
  assert (H : fst r = Ok p) by (vm_compute; reflexivity).
  split; [exact H|].
  destruct (resolved_path_is_published quiet url LORA_WEIGHTS_DIR (Some "safetensors")
              empty_world p H) as (Hin & _ & Hdir & Hext).
  split; [exact Hin|].
  split; [apply Hdir; [discriminate|discriminate|reflexivity]|].
  split; [exact (Hext "safetensors" eq_refl eq_refl)|].
  split; vm_compute; reflexivity.
Defined.



(** Only a [RuntimeError] is ever retried: an error of any other class
    comes back at once and unchanged, in the state the work left, even
    if its text carries an out-of-memory signature. *)
Theorem other_classes_are_not_retried {R} (ext : Externals) (function : M R)
    (ignored_models : list nat) (w w1 : World) (error : exn) :
  function w = (Raise error, w1) ->
  is_RuntimeError error = false ->
  execute_on_cuda ext function ignored_models w = (Raise error, w1).
Proof.
  intros Hf Hclass. unfold execute_on_cuda.
  destruct (rev (get_loaded_models_by_device cuda ignored_models w));
    simpl; rewrite ?orb_true_r, Hf, Hclass; reflexivity.
Qed.

Lemma other_classes_are_not_retried_witness :
  let error := mk_exn ValueError "CUDA out of memory" in
  is_cuda_oom error = true
  /\ execute_on_cuda quiet (raise error) [0%nat] two_resident
     = (Raise error : res unit, two_resident).
Proof.
  intros error. split; [reflexivity|].
  apply (other_classes_are_not_retried quiet (raise error) [0%nat]
           two_resident two_resident error); reflexivity.
Defined.

(* ===================================================================== *)
(** ** Further properties of the model cache *)
(* ===================================================================== *)

Lemma bind_inv {A B} (c : M (St := World) A) (k : A -> M B) w b w' :
  bind c k w = (Ok b, w') -> exists a w1, c w = (Ok a, w1) /\ k a w1 = (Ok b, w').
Proof.
  unfold bind. destruct (c w) as [[a|e] w1]; [eauto|discriminate].
Qed.

(** [get_model], case by case. *)
Lemma get_model_cases ext model_name arch w :
  get_model ext model_name arch w
  = if dict_mem (model_name, arch) (models w) then (Ok (model_name, arch), w)
    else
      match
        (if Str.endswith model_name ".ckpt" || Str.endswith model_name ".safetensors"
         then from_single_file ext
                (if String.eqb arch "sdxl" then StableDiffusionXLPipeline
                 else StableDiffusionPipeline) model_name w
         else from_pretrained ext model_name w)
      with
      | Raise e => (Raise e, w)
      | Ok P =>
          let P' := match watermark P with
                    | Some _ => with_watermark (Some None) P
                    | None => P
                    end in
          (Ok (model_name, arch),
           set_models
             (dict_set (model_name, arch)
                {| pipeline := next_id w; last_cache_hit := 0 |} (models w))
             (set_next_id (S (next_id w)) (update_pipe (next_id w) (fun _ => P') w)))
      end.
Proof.
  unfold get_model, bind, get. destruct (dict_mem _ _); [reflexivity|]. cbn [negb].
  destruct (Str.endswith model_name ".ckpt" || Str.endswith model_name ".safetensors");
    unfold lift;
    match goal with |- context [match ?x with Ok _ => _ | Raise _ => _ end] =>
      destruct x as [P|e] end; reflexivity.
Qed.

(** A model is loaded at most once per key: after a call of [get_model]
    that returns, the key is in the cache, and a second call with the
    same arguments returns the same key without changing anything, so
    without calling a loader or creating a pipeline. *)
Theorem get_model_loads_once (ext : Externals) (model_name arch : string)
    (w : World) (key : ModelKey) :
  fst (get_model ext model_name arch w) = Ok key ->
  let w1 := snd (get_model ext model_name arch w) in
  key = (model_name, arch)
  /\ dict_mem key (models w1) = true
  /\ get_model ext model_name arch w1 = (Ok key, w1).
Proof.
  rewrite get_model_cases.
  destruct (dict_mem (model_name, arch) (models w)) eqn:Hmem.
  - simpl. intros H. injection H as <-. rewrite get_model_cases, Hmem. auto.
  - destruct (if _ : bool then _ else _) as [P|e]; [|discriminate].
    simpl. intros H. injection H as <-.
    assert (Hin : dict_mem (model_name, arch)
                    (dict_set (model_name, arch)
                       {| pipeline := next_id w; last_cache_hit := 0 |} (models w))
                  = true).
    { unfold dict_mem. rewrite dict_get_set. reflexivity. }
    split; [reflexivity|]. split; [exact Hin|].
    rewrite get_model_cases. simpl models. rewrite Hin. reflexivity.
Qed.

Lemma get_model_loads_once_witness :
  let w1 := snd (get_model quiet "runwayml/stable-diffusion-v1-5" "sd" empty_world) in
  next_id w1 = 4%nat
  /\ get_model quiet "runwayml/stable-diffusion-v1-5" "sd" w1
     = (Ok ("runwayml/stable-diffusion-v1-5", "sd"), w1).
Proof.
  intros w1. split; [reflexivity|].
  apply (get_model_loads_once quiet "runwayml/stable-diffusion-v1-5" "sd" empty_world
           ("runwayml/stable-diffusion-v1-5", "sd")).
  reflexivity.
Defined.

(** Loading a model disturbs nothing that is cached: when [get_model]
    returns, the entries under every other key and every pipeline object
    that existed before are as they were; the entry it may have created
    has a pipeline of its own, and that pipeline carries no watermark.
    When the loader raises, the state is untouched. *)
Theorem get_model_frame (ext : Externals) (model_name arch : string) (w : World) :
  let r := get_model ext model_name arch w in
  (forall k, k <> (model_name, arch) ->
     dict_get k (models (snd r)) = dict_get k (models w))
  /\ (forall q, q <> next_id w -> heap (snd r) q = heap w q)
  /\ (forall e, fst r = Raise e -> snd r = w)
  /\ (dict_mem (model_name, arch) (models w) = false -> is_Ok (fst r) = true ->
        dict_get (model_name, arch) (models (snd r))
          = Some {| pipeline := next_id w; last_cache_hit := 0 |}
        /\ forall mark, watermark (heap (snd r) (next_id w)) <> Some (Some mark)).
Proof.
  cbv zeta. rewrite get_model_cases.
  destruct (dict_mem (model_name, arch) (models w)) eqn:Hmem.
  - simpl. repeat split; auto; discriminate.
  - destruct (if _ : bool then _ else _) as [P|e].
    + cbv zeta. simpl fst. simpl snd. split; [|split; [|split]].
      * intros k Hk. simpl. apply dict_get_set_ne. exact Hk.
      * intros q Hq. simpl. apply Nat.eqb_neq in Hq. rewrite Hq. reflexivity.
      * discriminate.
      * intros _ _. simpl. rewrite dict_get_set, Nat.eqb_refl. split; [reflexivity|].
        intros mark. destruct (watermark P) as [[m|]|] eqn:Hw; simpl; congruence.
    + simpl. repeat split; auto; discriminate.
Qed.

Lemma get_model_frame_witness :
  let r := get_model quiet "/models/base.safetensors" "sd" one_resident in
  dict_get ("other", "sd") (models (snd r)) = dict_get ("other", "sd") (models one_resident)
  /\ heap (snd r) 1 = heap one_resident 1
  /\ dict_get ("/models/base.safetensors", "sd") (models (snd r))
     = Some {| pipeline := 3; last_cache_hit := 0 |}.
Proof.
  intros r.
  destruct (get_model_frame quiet "/models/base.safetensors" "sd" one_resident)
    as (Hkeys & Hheap & _ & Hnew).
  split; [apply Hkeys; discriminate|].
  split; [apply Hheap; discriminate|].
  exact (proj1 (Hnew eq_refl eq_refl)).
Defined.

(** The pipeline that [load_model] hands to its block is on the
    accelerator: when the entry of the call succeeds, the last thing that
    happened is a successful [pipe.to("cuda")] on the leased pipeline. *)
Theorem leased_pipeline_is_on_accelerator (ext : Externals) (model_name : string)
    (model_architecture : option string) (w : World) (model_key : ModelKey)
    (pipe : nat) :
  fst (acquire ext model_name model_architecture w) = Ok (model_key, pipe) ->
  device (heap (snd (acquire ext model_name model_architecture w)) pipe) = cuda.
Proof.
  destruct (acquire ext model_name model_architecture w) as [r w'] eqn:Hacq.
  simpl. intros ->. unfold acquire in Hacq.
  apply bind_inv in Hacq as (name & w1 & _ & Hacq).
  apply bind_inv in Hacq as (model & w2 & _ & Hacq).
  apply bind_inv in Hacq as (p0 & w3 & _ & Hacq).
  apply bind_inv in Hacq as (p1 & w4 & Hexec & Hret).
  unfold ret in Hret. injection Hret as _ -> <-.
  apply execute_on_cuda_leaves_result in Hexec as (v & Hto).
  apply pipe_to_effect in Hto as (_ & _ & _ & Hp).
  destruct (Hp pipe eq_refl) as [-> Hdev]. exact Hdev.
Qed.

Lemma leased_pipeline_is_on_accelerator_witness :
  device (heap (snd (acquire quiet "runwayml/stable-diffusion-v1-5" None empty_world))
            3) = cuda.
Proof.
  apply (leased_pipeline_is_on_accelerator quiet "runwayml/stable-diffusion-v1-5" None
           empty_world ("runwayml/stable-diffusion-v1-5", "sd") 3%nat).
  vm_compute. reflexivity.
Defined.

(* ===================================================================== *)
(** ** Further properties of the scoped customisations *)
(* ===================================================================== *)

(** A sampler override that cannot be honoured is refused before the
    block: an unknown name raises [KeyError], a class the pipeline does
    not accept raises [ValueError]; in both cases the block is not run
    and nothing has changed. *)
Theorem refused_override_changes_nothing {A} (ext : Externals) (pipe : nat)
    (scheduler_name : string) (body : M A) (w : World) :
  (assoc scheduler_name SUPPORTED_SCHEDULERS = None ->
     exists text,
       change_scheduler ext pipe (Some scheduler_name) body w
       = (Raise (mk_exn KeyError text), w))
  /\ (forall cls kw,
        assoc scheduler_name SUPPORTED_SCHEDULERS = Some (cls, kw) ->
        accepted cls (heap w pipe) = false ->
        exists text,
          change_scheduler ext pipe (Some scheduler_name) body w
          = (Raise (mk_exn ValueError text), w)).
Proof.
  unfold change_scheduler. split.
  - intros ->. eexists. reflexivity.
  - intros cls kw -> Hacc. unfold bind, read_pipe. unfold accepted in Hacc.
    rewrite <- negb_orb, Hacc. eexists. reflexivity.
Qed.

(** On a pipeline whose sampler declares no compatible class, the
    override "Euler A" is refused and so is the unknown name "Heun"; the
    text of the [KeyError] is the name between quotes. *)
Lemma refused_override_changes_nothing_witness :
  let bare := update_pipe 0 (with_scheduler
                {| sched_id := 0; sched_class := "DDIMScheduler"; sched_config := [];
                   compatibles := [] |}) one_resident in
  assoc "Euler A" SUPPORTED_SCHEDULERS = Some ("EulerAncestralDiscreteScheduler", [])
  /\ accepted "EulerAncestralDiscreteScheduler" (heap bare 0) = false
  /\ snd (change_scheduler quiet 0 (Some "Euler A") (inference quiet) bare) = bare
  /\ change_scheduler quiet 0 (Some "Heun") (inference quiet) bare
     = (Raise (mk_exn KeyError "'Heun'"), bare).
Proof.
  intros bare. split; [reflexivity|]. split; [reflexivity|].
  destruct (refused_override_changes_nothing quiet 0 "Euler A" (inference quiet) bare)
    as [_ Hrefused].
  destruct (Hrefused "EulerAncestralDiscreteScheduler" [] eq_refl eq_refl) as (text & ->).
  split; [reflexivity|].
  destruct (refused_override_changes_nothing quiet 0 "Heun" (inference quiet) bare)
    as [Hunknown _].
  destruct (Hunknown eq_refl) as (text' & H).
  rewrite H. vm_compute in H. injection H as <-. reflexivity.
Defined.

(** An accepted override runs the block under the substituted sampler:
    the sampler built by [from_config] from the configuration of the
    original one is on the pipeline when the block starts, and the
    outcome of the scope is the outcome of the block. *)
Theorem block_runs_under_substituted_sampler {A} (ext : Externals) (pipe : nat)
    (scheduler_name cls : string) (kw : kwargs) (fresh : Scheduler)
    (body : M A) (w : World) :
  assoc scheduler_name SUPPORTED_SCHEDULERS = Some (cls, kw) ->
  accepted cls (heap w pipe) = true ->
  from_config ext cls (sched_config (scheduler (heap w pipe))) kw w = Ok fresh ->
  let started := update_pipe pipe (with_scheduler fresh) w in
  scheduler (heap started pipe) = fresh
  /\ fst (change_scheduler ext pipe (Some scheduler_name) body w) = fst (body started).
Proof.
  intros Hname Hacc Hfresh started. split.
  - simpl. rewrite Nat.eqb_refl. reflexivity.
  - unfold change_scheduler. rewrite Hname. unfold bind at 1, read_pipe.
    unfold accepted in Hacc. rewrite <- negb_orb, Hacc. cbn [negb].
    unfold try_finally, bind at 1, get. unfold bind at 1, lift. rewrite Hfresh.
    unfold bind at 1, set_scheduler at 1, modify. fold started.
    destruct (body started) as [r w1]. reflexivity.
Qed.

Lemma block_runs_under_substituted_sampler_witness :
  let fresh := {| sched_id := 1; sched_class := "EulerDiscreteScheduler";
                  sched_config := []; compatibles := [] |} in
  fst (change_scheduler quiet 0 (Some "Euler") (read_pipe 0) one_resident)
  = Ok (with_scheduler fresh (pipe_on cuda)).
Proof.
  intros fresh.
  rewrite (proj2 (block_runs_under_substituted_sampler quiet 0 "Euler"
                    "EulerDiscreteScheduler" [] fresh (read_pipe 0) one_resident
                    eq_refl eq_refl eq_refl)).
  reflexivity.
Defined.



Lemma with_loras_never_runs_block {A} ext pipe model_key loras (body body' : M A) v :
  loras <> [] ->
  with_loras ext pipe model_key loras body v = with_loras ext pipe model_key loras body' v
  /\ is_Ok (fst (with_loras ext pipe model_key loras body v)) = false.
Proof.
  intros Hne. destruct loras as [|l loras]; [congruence|].
  unfold with_loras, try_finally. simpl.
  destruct (undo_loras _ _ _ _ _) as [[u|e] w2]; split; reflexivity.
Qed.

(** [change_scheduler] with a named override, case by case. *)
Lemma change_scheduler_cases {A} ext pipe n (body : M A) w :
  change_scheduler ext pipe (Some n) body w
  = match assoc n SUPPORTED_SCHEDULERS with
    | None => (Raise (mk_exn KeyError (Str.repr n)), w)
    | Some (cls, kw) =>
        let original := scheduler (heap w pipe) in
        if negb (mem_string cls (compatibles original))
           && negb (String.eqb cls "LCMScheduler")
        then
          (Raise (mk_exn ValueError
                    ("The scheduler " +:+ n
                     +:+ " is not compatible with this model." +:+ newline
                     +:+ "Compatible schedulers: "
                     +:+ join_with ", " (compatibles original))), w)
        else
          match from_config ext cls (sched_config original) kw w with
          | Raise e => (Raise e, update_pipe pipe (with_scheduler original) w)
          | Ok fresh =>
              let (r, w1) := body (update_pipe pipe (with_scheduler fresh) w) in
              (r, update_pipe pipe (with_scheduler original) w1)
          end
    end.
Proof.
  unfold change_scheduler.
  destruct (assoc n SUPPORTED_SCHEDULERS) as [[cls kw]|]; [|reflexivity].
  unfold bind at 1, read_pipe. cbv zeta.
  destruct (_ && _); [reflexivity|].
  unfold try_finally, bind at 1, get. unfold bind at 1, lift.
  destruct (from_config _ _ _ _ _) as [fresh|e]; [|reflexivity].
  unfold bind at 1, set_scheduler at 1, modify.
  destruct (body _) as [r w1]. unfold set_scheduler, modify. destruct r; reflexivity.
Qed.

Lemma change_scheduler_ext {A} ext pipe scheduler_name (body body' : M A) w :
  (forall v, body v = body' v) ->
  change_scheduler ext pipe scheduler_name body w
  = change_scheduler ext pipe scheduler_name body' w.
Proof.
  intros Hext. destruct scheduler_name as [n|]; [|apply Hext].
  rewrite !change_scheduler_cases.
  destruct (assoc n SUPPORTED_SCHEDULERS) as [[cls kw]|]; [|reflexivity].
  cbv zeta. destruct (_ && _); [reflexivity|].
  destruct (from_config _ _ _ _ _); [|reflexivity].
  rewrite Hext. reflexivity.
Qed.

Lemma change_scheduler_fails {A} ext pipe scheduler_name (body : M A) w :
  (forall v, is_Ok (fst (body v)) = false) ->
  is_Ok (fst (change_scheduler ext pipe scheduler_name body w)) = false.
Proof.
  intros Hfail. destruct scheduler_name as [n|]; [|apply Hfail].
  rewrite change_scheduler_cases.
  destruct (assoc n SUPPORTED_SCHEDULERS) as [[cls kw]|]; [|reflexivity].
  cbv zeta. destruct (_ && _); [reflexivity|].
  destruct (from_config _ _ _ _ _) as [fresh|e]; [|reflexivity].
  specialize (Hfail (update_pipe pipe (with_scheduler fresh) w)).
  destruct (body _) as [r w1]. exact Hfail.
Qed.

(** A call of [load_model] with overlays never runs its block and never
    returns normally: applying the overlays raises before the [yield], so
    the outcome and the final state are the same for every block. *)
Theorem load_model_with_overlays_never_yields {A} (ext : Externals)
    (model_name : string) (loras : list LoraWeight) (clip_skip : Z)
    (scheduler_name model_architecture : option string)
    (body body' : nat -> M A) (w : World) :
  loras <> [] ->
  load_model ext model_name loras clip_skip scheduler_name model_architecture body w
  = load_model ext model_name loras clip_skip scheduler_name model_architecture body' w
  /\ is_Ok (fst (load_model ext model_name loras clip_skip scheduler_name
                   model_architecture body w)) = false.
Proof.
  intros Hne. unfold load_model, bind.
  destruct (acquire ext model_name model_architecture w) as [[[model_key pipe]|e] w1];
    [|split; reflexivity].
  split.
  - apply change_scheduler_ext. intros v.
    apply with_loras_never_runs_block. exact Hne.
  - apply change_scheduler_fails. intros v.
    apply (with_loras_never_runs_block ext pipe model_key loras (body pipe) (body pipe) v).
    exact Hne.
Qed.

Lemma load_model_with_overlays_never_yields_witness :
  is_Ok (fst (load_model quiet "runwayml/stable-diffusion-v1-5" [style_lora] 0 None None
                (fun pipe => inference quiet) empty_world)) = false.
Proof.
  apply (load_model_with_overlays_never_yields quiet "runwayml/stable-diffusion-v1-5"
           [style_lora] 0 None None (fun pipe => inference quiet)
           (fun pipe => inference quiet) empty_world).
  discriminate.
Defined.

Lemma contains_dot_chars (l : list ascii) :
  Str.contains_chars ["."%char] l = existsb (Ascii.eqb ".") l.
Proof.
  induction l as [|c l IH]; [reflexivity|].
  cbn [Str.contains_chars Str.prefix_chars existsb].
  rewrite IH, andb_true_r. reflexivity.
Qed.

Lemma chars_of_chars (l : list ascii) : Str.chars (Str.of_chars l) = l.
Proof. apply list_ascii_of_string_of_list_ascii. Qed.

(** The adapter names that [merge_and_apply_loras] derives from the
    file names never contain a dot. *)
Theorem adapter_names_have_no_dot (paths : list string) (w : World)
    (adapter_names : list string) :
  fst (mapM (fun lora_path =>
               nm <- lift (Pathlib.name_of lora_path) ;;
               ret (Str.replace "." "_" nm))
            (map py_str paths) w) = Ok adapter_names ->
  length adapter_names = length paths
  /\ Forall (fun adapter_name => Str.contains "." adapter_name = false) adapter_names.
Proof.
  rewrite adapter_names_of_texts. simpl. intros H. injection H as <-.
  split; [apply length_map|].
  apply Forall_forall. intros nm Hin. apply list_elem_of_In in Hin.
  apply in_map_iff in Hin as (s & <- & _).
  unfold Str.contains, Str.replace. rewrite chars_of_chars.
  change (Str.chars ".") with ["."%char]. rewrite contains_dot_chars.
  induction (Str.chars (Pathlib.name s)) as [|c l IH]; [reflexivity|].
  cbn [map existsb]. rewrite IH, orb_false_r.
  destruct (Ascii.eqb_spec c ".") as [->|Hc]; [reflexivity|].
  apply Ascii.eqb_neq. congruence.
Qed.

Lemma adapter_names_have_no_dot_witness :
  fst (mapM (fun lora_path =>
               nm <- lift (Pathlib.name_of lora_path) ;;
               ret (Str.replace "." "_" nm))
            (map py_str ["/data/loras/style.v2.safetensors"]) empty_world)
    = Ok ["style_v2_safetensors"]
  /\ Forall (fun adapter_name => Str.contains "." adapter_name = false)
       ["style_v2_safetensors"].
Proof.
  assert (H : fst (mapM (fun lora_path =>
                     nm <- lift (Pathlib.name_of lora_path) ;;
                     ret (Str.replace "." "_" nm))
                  (map py_str ["/data/loras/style.v2.safetensors"]) empty_world)
              = Ok ["style_v2_safetensors"]) by reflexivity.
  split; [exact H|].
  exact (proj2 (adapter_names_have_no_dot ["/data/loras/style.v2.safetensors"]
                  empty_world ["style_v2_safetensors"] H)).
Defined.

(* ===================================================================== *)
(** ** Further properties of the endpoint *)
(* ===================================================================== *)

Lemma upload_images_cases ext images :
  forall w,
    snd (upload_images ext images w) = w
    /\ forall out, fst (upload_images ext images w) = Ok out ->
         Forall2 (fun image ref => Image_from_pil ext image w = Ok ref) images out.
Proof.
  unfold upload_images. induction images as [|image images IH]; intros w.
  - split; [reflexivity|]. intros out H. injection H as <-. constructor.
  - cbn [mapM]. destruct (IH w) as [Hw Hout].
    unfold bind, get, lift, ret in *.
    destruct (Image_from_pil ext image w) as [ref|e] eqn:Hup.
    + destruct (mapM _ images w) as [[refs|e] w1]; simpl in Hw, Hout |- *.
      * split; [exact Hw|]. intros out H. injection H as <-.
        constructor; [exact Hup|]. apply Hout. reflexivity.
      * split; [exact Hw|]. discriminate.
    + split; [reflexivity|]. discriminate.
Qed.

(** [upload_images] returns one reference per image, in the order of
    the images, each the upload of the image at its position; it changes
    nothing in the state of the runtime. *)
Theorem upload_images_is_positional (ext : Externals) (images : list RawImage)
    (w : World) (out : list Image) :
  fst (upload_images ext images w) = Ok out ->
  Forall2 (fun image ref => Image_from_pil ext image w = Ok ref) images out
  /\ length out = length images
  /\ snd (upload_images ext images w) = w.
Proof.
  intros H. destruct (upload_images_cases ext images w) as [Hw Hout].
  specialize (Hout out H). split; [exact Hout|]. split; [|exact Hw].
  symmetry. eapply Forall2_length. exact Hout.
Qed.

Lemma upload_images_is_positional_witness :
  fst (upload_images quiet [7%nat; 8%nat] empty_world)
    = Ok ["https://storage/image.png"; "https://storage/image.png"]
  /\ length ["https://storage/image.png"; "https://storage/image.png"] = 2%nat.
Proof.
  assert (H : fst (upload_images quiet [7%nat; 8%nat] empty_world)
              = Ok ["https://storage/image.png"; "https://storage/image.png"])
    by reflexivity.
  split; [exact H|].
  exact (proj1 (proj2 (upload_images_is_positional quiet [7%nat; 8%nat] empty_world
                         _ H))).
Defined.

(** The errors of [generate_image], once the session exists: a
    [ValueError] or [TypeError], or an error of a class that descends
    from them, never leaves the lease as such, it is turned into an
    [HTTPException]; if [generate_image] raises an error of these
    classes, it is the error of [get_image_size], raised before the
    session was touched. *)
Theorem bad_request_errors_come_from_image_size (ext : Externals)
    (get_image_size : ImageSizeInput -> res (Z * Z)) (torch_seed : Z)
    (manual_seed_raises : Z -> option exn)
    (run_safety_checker : list RawImage -> bool -> M (list bool))
    (filter_by : list bool -> list RawImage -> list RawImage)
    (input : InputParameters.t) (w : World) (exc : exn) :
  fst (generate_image ext get_image_size torch_seed manual_seed_raises
         run_safety_checker filter_by input w) = Raise exc ->
  is_ValueError_or_TypeError exc = true ->
  exists size,
    InputParameters.image_size input = Some size
    /\ get_image_size size = Raise exc
    /\ snd (generate_image ext get_image_size torch_seed manual_seed_raises
              run_safety_checker filter_by input w) = w.
Proof.
  assert (Hwrapped : forall A (body : M A) v e,
             fst (wrap_excs body v) = Raise e -> is_ValueError_or_TypeError e = false).
  { intros A body v e. unfold wrap_excs.
    destruct (body v) as [[a|e0] v1]; [discriminate|].
    destruct (is_ValueError_or_TypeError e0) eqn:Hc; simpl;
      intros H; injection H as <-; [reflexivity|exact Hc]. }
  unfold generate_image, bind at 1.
  destruct (InputParameters.image_size input) as [size|].
  - unfold bind at 1, lift. destruct (get_image_size size) as [sz|e] eqn:Hsize.
    + unfold ret. intros H Hclass. apply Hwrapped in H. congruence.
    + simpl. intros H. injection H as <-. intros _. exists size. auto.
  - unfold ret. intros H Hclass. apply Hwrapped in H. congruence.
Qed.

Lemma bad_request_errors_come_from_image_size_witness :
  let odd := mk_exn ValueError "Invalid value" in
  let input := {| InputParameters.model_name := "runwayml/stable-diffusion-v1-5";
                  InputParameters.prompt := "a red car";
                  InputParameters.negative_prompt := "";
                  InputParameters.loras := [];
                  InputParameters.embeddings := [];
                  InputParameters.seed := None;
                  InputParameters.image_size := Some (size_preset "tiny");
                  InputParameters.num_inference_steps := 30;
                  InputParameters.guidance_scale := 75 # 10;
                  InputParameters.clip_skip := 0;
                  InputParameters.model_architecture := None;
                  InputParameters.scheduler := None;
                  InputParameters.image_format := "png";
                  InputParameters.num_images := 1;
                  InputParameters.enable_safety_checker := false |} in
  exists size,
    InputParameters.image_size input = Some size
    /\ (fun _ : ImageSizeInput => Raise odd : res (Z * Z)) size = Raise odd
    /\ snd (generate_image quiet (fun _ => Raise odd) 42 (fun _ => None)
              nothing_flagged keep_all input one_resident) = one_resident.
Proof.
  intros odd input.
  apply (bad_request_errors_come_from_image_size quiet (fun _ => Raise odd) 42
           (fun _ => None) nothing_flagged keep_all input one_resident odd).
  - reflexivity.
  - reflexivity.
Defined.
